(** * UK property analytics: ingestion, spatial join and grid aggregation

    A shallow embedding of the pipeline of [src/ingest_onspd.py],
    [src/ingest_ppd.py] and [src/build_heatmap_tiles.py], and the
    properties of it that the specification states.

    Conventions of the embedding.
    - Text is [string] (one [ascii] per character); the source text is taken
      to be ASCII, which is what the postcode, price and header fields hold.
      Characters above 127 are left alone by [upper]/[lower] and are never
      whitespace.
    - A SQLite table with a PRIMARY KEY is a [gmap] from the key to the other
      columns; a table made by CREATE TABLE ... AS SELECT without a key is the
      list of its rows. A table that may not exist is an [option].
    - INTEGER columns are [Z]; SQL NULL and Python None are [None].
    - Python exceptions that end the run are the [Aborted] outcome of [run]. *)

From Stdlib Require Import ZArith QArith Qround List String Ascii Lia.
From stdpp Require Import base option list gmap strings sorting.

Local Open Scope string_scope.
Local Open Scope Z_scope.

(** ** Python strings *)

Module Py.

(** [str.isspace] on ASCII: TAB, LF, VT, FF, CR, FS, GS, RS, US and SPACE. *)
Definition is_space (c : ascii) : bool :=
  let n := N_of_ascii c in
  ((9 <=? n) && (n <=? 13) || (28 <=? n) && (n <=? 32))%N.

Fixpoint lstrip (s : string) : string :=
  match s with
  | EmptyString => EmptyString
  | String c s' => if is_space c then lstrip s' else s
  end.

Definition is_empty (s : string) : bool :=
  match s with EmptyString => true | _ => false end.

Fixpoint rstrip (s : string) : string :=
  match s with
  | EmptyString => EmptyString
  | String c s' =>
      let r := rstrip s' in
      if is_space c && is_empty r then EmptyString else String c r
  end.

(** [s.strip()] *)
Definition strip (s : string) : string := rstrip (lstrip s).

Definition upper_char (c : ascii) : ascii :=
  let n := N_of_ascii c in
  if ((97 <=? n) && (n <=? 122))%N then ascii_of_N (n - 32) else c.

Definition lower_char (c : ascii) : ascii :=
  let n := N_of_ascii c in
  if ((65 <=? n) && (n <=? 90))%N then ascii_of_N (n + 32) else c.

Fixpoint map_chars (f : ascii -> ascii) (s : string) : string :=
  match s with
  | EmptyString => EmptyString
  | String c s' => String (f c) (map_chars f s')
  end.

(** [s.upper()] and [s.lower()] *)
Definition upper (s : string) : string := map_chars upper_char s.
Definition lower (s : string) : string := map_chars lower_char s.

(** [s.replace(" ", "")]: every SPACE character is removed. *)
Fixpoint replace_space (s : string) : string :=
  match s with
  | EmptyString => EmptyString
  | String c s' =>
      if Ascii.eqb c " "%char then replace_space s' else String c (replace_space s')
  end.

(** [sep.join(items)] *)
Fixpoint join (sep : string) (items : list string) : string :=
  match items with
  | [] => EmptyString
  | [x] => x
  | x :: rest => x ++ sep ++ join sep rest
  end.

(** [sub in s]: substring test. *)
Fixpoint str_in (sub s : string) : bool :=
  String.prefix sub s ||
  match s with
  | EmptyString => false
  | String _ s' => str_in sub s'
  end.

(** [s.endswith(suffix)] *)
Definition endswith (s suffix : string) : bool :=
  let n := String.length s in
  let k := String.length suffix in
  (k <=? n)%nat && String.eqb (String.substring (n - k) k s) suffix.

(** Truthiness of a string, and [x or None]. *)
Definition truthy (s : string) : bool := negb (is_empty s).
Definition or_none (s : string) : option string :=
  if truthy s then Some s else None.

(** [d.get(k1) or d.get(k2) or ""] on a dictionary whose missing values read
    as None. *)
Definition get_or (d : gmap string string) (k : string) (dflt : string) : string :=
  match d !! k with
  | Some v => if truthy v then v else dflt
  | None => dflt
  end.

(** *** [int(s)] for a string

    After stripping whitespace: an optional sign, then decimal digits in which
    single underscores may separate digits. Anything else raises ValueError,
    which is [None] here. (An interpreter that caps the number of digits of a
    literal raises the same ValueError beyond its cap; the cap is a run-time
    setting and is left out.) *)
Definition is_digit (c : ascii) : bool :=
  let n := N_of_ascii c in ((48 <=? n) && (n <=? 57))%N.

Definition digit_val (c : ascii) : Z := Z.of_N (N_of_ascii c) - 48.

(** [digits_from acc prev_digit s]: reads the rest of a literal. [prev_digit]
    says that the character before was a digit, so that an underscore is
    allowed here and the literal may end here. *)
Fixpoint digits_from (acc : Z) (prev_digit : bool) (s : string) : option Z :=
  match s with
  | EmptyString => if prev_digit then Some acc else None
  | String c s' =>
      if is_digit c then digits_from (10 * acc + digit_val c) true s'
      else if Ascii.eqb c "_"%char && prev_digit then digits_from acc false s'
      else None
  end.

Definition int_of_str (s : string) : option Z :=
  match strip s with
  | String "-"%char s' => Z.opp <$> digits_from 0 false s'
  | String "+"%char s' => digits_from 0 false s'
  | s' => digits_from 0 false s'
  end.

End Py.

(** ** Postcode keys ([normalise_postcode], the same in both loaders) *)

Definition normalise_postcode (pc : string) : string :=
  Py.replace_space (Py.upper (Py.strip pc)).

Example normalise_lower : normalise_postcode "ec1a 1bb" = "EC1A1BB".
Proof. reflexivity. Qed.

Example normalise_upper : normalise_postcode " EC1A1BB " = "EC1A1BB".
Proof. reflexivity. Qed.

Example int_of_str_ex :
  Py.int_of_str "100000" = Some 100000 /\ Py.int_of_str "-5" = Some (-5) /\
  Py.int_of_str "1_000" = Some 1000 /\ Py.int_of_str "" = None /\
  Py.int_of_str "12a" = None /\ Py.int_of_str "1__0" = None /\
  Py.int_of_str "+" = None /\ Py.int_of_str "3.5" = None.
Proof. repeat split; reflexivity. Qed.

(** ** Outcome of a run

    A component either runs to its end or is ended by an exception
    (SystemExit, ValueError, OverflowError). In both cases what matters to the
    next component is what has been committed to the store. *)

Inductive run (St A : Type) : Type :=
  | Finished (a : A) (store : St)
  | Aborted (store : St).
Arguments Finished {St A} a store.
Arguments Aborted {St A} store.

Definition committed {St A} (r : run St A) : St :=
  match r with Finished _ s => s | Aborted s => s end.

Definition finished {St A} (r : run St A) : bool :=
  match r with Finished _ _ => true | Aborted _ => false end.

(** [BATCH_SIZE = 50_000] in both loaders. *)
Definition BATCH_SIZE : Z := 50000.

(** ** Floating point

    REAL columns and Python floats are IEEE doubles. Their arithmetic is not
    part of this development: the operations the pipeline uses are the fields
    of a class, and every statement below holds for any implementation of it.
    [float_of_str] is Python's [float(s)], [None] for ValueError;
    [float_is_nan] recognises the values that SQLite stores as NULL;
    [float_div], [float_mul] and [float_floor] are SQL's [/], [*] and FLOOR
    on REAL values, [float_centi] is the literal [0.01]. Equality on [float]
    is the equality GROUP BY and PARTITION BY use. *)

Class PyFloat (float : Type) := {
  float_eq_dec :: EqDecision float;
  float_of_str : string -> option float;
  float_is_nan : float -> bool;
  float_div : float -> float -> float;
  float_mul : float -> float -> float;
  float_floor : float -> float;
  float_centi : float
}.

(** ** Schema *)

Module Sale.
(** The non-key columns of [ppd_sales]; the key is [transaction_id]. *)
Record t := {
  price : Z;
  transfer_date : string;
  postcode : string;
  property_type : option string;
  new_build : option string;
  tenure : option string;
  paon : option string;
  saon : option string;
  street : option string;
  locality : option string;
  town : option string;
  district : option string;
  county : option string;
  ppd_category_type : option string;
  record_status : option string
}.

End Sale.

Module Geo.
Section WithFloat.
Context {float : Type}.
(** The non-key columns of [postcode_geo]; the key is [postcode]. *)
Record t := {
  lat : option float;
  lon : option float;
  ladcd : option string;
  ladnm : option string
}.
End WithFloat.
Arguments t : clear implicits.
End Geo.

Module Joined.
Section WithFloat.
Context {float : Type}.
(** A row of [ppd_sales_geo] and of [ppd_sales_geo_region]. *)
Record t := {
  transaction_id : option string;
  price : option Z;
  transfer_date : option string;
  postcode : option string;
  property_type : option string;
  new_build : option string;
  tenure : option string;
  lat : option float;
  lon : option float;
  ladnm : option string
}.
End WithFloat.
Arguments t : clear implicits.
End Joined.

Module Tile.
Section WithFloat.
Context {float : Type}.
(** A row of [heatmap_tiles]. AVG is taken in exact rationals. *)
Record t := {
  lat_bin : float;
  lon_bin : float;
  sales_count : Z;
  avg_price : option Q;
  median_price : option Q
}.
End WithFloat.
Arguments t : clear implicits.
End Tile.

(** The six tables of [db/housing.db]; [None] is a table that does not
    exist. The region subset has no key: it is the list of its rows. *)
Section Store.
Context {float : Type}.
Record db := {
  postcode_geo : option (gmap string (Geo.t float));
  postcode_geo_region : option (list (string * Geo.t float));
  ppd_sales : option (gmap string Sale.t);
  ppd_sales_geo : option (list (Joined.t float));
  ppd_sales_geo_region : option (list (Joined.t float));
  heatmap_tiles : option (list (Tile.t float))
}.
End Store.
Arguments db : clear implicits.

(** ** Transaction loader ([ingest_ppd.py]) *)

Module Ppd.

Abbreviation sale := Sale.t.
Abbreviation table := (gmap string Sale.t).

Definition detect_header (first_row : list string) : bool :=
  match first_row with
  | [] => false
  | _ =>
      let joined := Py.lower (Py.join "," first_row) in
      (Py.str_in "transaction" joined && Py.str_in "identifier" joined)
      || (Py.str_in "price" joined && Py.str_in "postcode" joined)
  end.

(** [row[i] or ""], for an index known to be in range. *)
Definition col (row : list string) (i : nat) : string := nth i row "".

(** [(row[i] or "").strip() if len(row) > i else ""], followed by [x or None]
    when the tuple is built. *)
Definition opt_col (row : list string) (i : nat) : option string :=
  Py.or_none (if (i <? length row)%nat then Py.strip (col row i) else "").

(** The body of the loop for one row, up to [batch.append]: [None] is
    [continue]. *)
Definition parse_row (row : list string) : option (string * sale) :=
  if (length row <? 7)%nat then None
  else
    let txid := Py.strip (col row 0) in
    if negb (Py.truthy txid) then None
    else
      match Py.int_of_str (Py.strip (col row 1)) with
      | None => None
      | Some price =>
          let transfer_date := Py.strip (col row 2) in
          let postcode := normalise_postcode (col row 3) in
          if negb (Py.truthy postcode) then None
          else
            Some (txid,
                  {| Sale.price := price;
                     Sale.transfer_date := transfer_date;
                     Sale.postcode := postcode;
                     Sale.property_type := Py.or_none (Py.strip (col row 4));
                     Sale.new_build := Py.or_none (Py.strip (col row 5));
                     Sale.tenure := Py.or_none (Py.strip (col row 6));
                     Sale.paon := opt_col row 7;
                     Sale.saon := opt_col row 8;
                     Sale.street := opt_col row 9;
                     Sale.locality := opt_col row 10;
                     Sale.town := opt_col row 11;
                     Sale.district := opt_col row 12;
                     Sale.county := opt_col row 13;
                     Sale.ppd_category_type := opt_col row 14;
                     Sale.record_status := opt_col row 15 |})
      end.

(** A Python int binds to a SQLite INTEGER only inside 64 bits; outside,
    [executemany] raises OverflowError. *)
Definition fits_int64 (z : Z) : bool := (- 2 ^ 63 <=? z) && (z <? 2 ^ 63).

(** INSERT ... ON CONFLICT(transaction_id) DO UPDATE SET every other column. *)
Definition upsert (t : table) (kv : string * sale) : table := <[kv.1 := kv.2]> t.

(** [conn.executemany(insert_sql, batch); conn.commit()]: [None] when a bind
    fails, in which case nothing of the batch is committed. *)
Definition executemany (batch : list (string * sale)) (t : table) : option table :=
  if forallb (fun kv => fits_int64 (Sale.price kv.2)) batch
  then Some (foldl upsert t batch)
  else None.

Record loop_state := {
  batch : list (string * sale);
  stored : table;
  total_rows_read : Z;
  total_rows_written : Z;
  progress : list (Z * Z)
}.

(** One iteration of [for row in reader]. [None]: an exception left the
    loop. *)
Definition step (st : loop_state) (row : list string) : option loop_state :=
  let read := total_rows_read st + 1 in
  match parse_row row with
  | None =>
      Some {| batch := batch st; stored := stored st; total_rows_read := read;
              total_rows_written := total_rows_written st; progress := progress st |}
  | Some entry =>
      let b := (batch st ++ [entry])%list in
      if Z.of_nat (length b) >=? BATCH_SIZE then
        match executemany b (stored st) with
        | None => None
        | Some t =>
            let written := total_rows_written st + Z.of_nat (length b) in
            Some {| batch := []; stored := t; total_rows_read := read;
                    total_rows_written := written;
                    progress := (progress st ++ [(read, written)])%list |}
        end
      else
        Some {| batch := b; stored := stored st; total_rows_read := read;
                total_rows_written := total_rows_written st; progress := progress st |}
  end.

(** What the loader reports when it completes. *)
Record report := {
  rows_read : Z;
  rows_written : Z;
  progress_lines : list (Z * Z)
}.

(** The loop followed by the flush of the last, partial batch. *)
Fixpoint ingest_rows (rows : list (list string)) (st : loop_state) : run table report :=
  match rows with
  | row :: rest =>
      match step st row with
      | Some st' => ingest_rows rest st'
      | None => Aborted (stored st)
      end
  | [] =>
      match batch st with
      | [] =>
          Finished {| rows_read := total_rows_read st;
                      rows_written := total_rows_written st;
                      progress_lines := progress st |} (stored st)
      | b =>
          match executemany b (stored st) with
          | None => Aborted (stored st)
          | Some t =>
              Finished {| rows_read := total_rows_read st;
                          rows_written := total_rows_written st + Z.of_nat (length b);
                          progress_lines := progress st |} t
          end
      end
  end.

Definition init (t : table) : loop_state :=
  {| batch := []; stored := t; total_rows_read := 0; total_rows_written := 0;
     progress := [] |}.

(** The rows the loop sees: the first row is dropped when it is a header. *)
Definition data_rows (first_row : list string) (rest : list (list string))
  : list (list string) :=
  if detect_header first_row then rest else first_row :: rest.

(** [ingest_ppd]: [ppd_csv] and [ppd_csv_alt] are the rows that [csv.reader]
    gives for [PPD_CSV] and [PPD_CSV_ALT], [None] for a path that does not
    exist. A missing or empty file is SystemExit. *)
Definition ingest_ppd (ppd_csv ppd_csv_alt : option (list (list string)))
    (t : table) : run table report :=
  let file := match ppd_csv with Some f => Some f | None => ppd_csv_alt end in
  match file with
  | None => Aborted t
  | Some [] => Aborted t
  | Some (first_row :: rest) => ingest_rows (data_rows first_row rest) (init t)
  end.

End Ppd.

(** ** Reference loader ([ingest_onspd.py]) *)

Module Onspd.
Section WithFloat.
Context {float : Type} `{!PyFloat float}.

(** Worcestershire and the bordering counties, by local authority name. *)
Definition LAD_NAMES_REGION : list string :=
  [ "Worcester"; "Wychavon"; "Malvern Hills"; "Bromsgrove"; "Redditch"; "Wyre Forest";
    "Herefordshire, County of";
    "Cheltenham"; "Cotswold"; "Forest of Dean"; "Gloucester"; "Stroud"; "Tewkesbury";
    "North Warwickshire"; "Nuneaton and Bedworth"; "Rugby"; "Stratford-on-Avon"; "Warwick";
    "Cannock Chase"; "East Staffordshire"; "Lichfield"; "Newcastle-under-Lyme";
    "South Staffordshire"; "Stafford"; "Staffordshire Moorlands"; "Tamworth";
    "Shropshire"; "Telford and Wrekin";
    "Birmingham"; "Coventry"; "Dudley"; "Sandwell"; "Solihull"; "Walsall"; "Wolverhampton" ].

(** A CSV file found under [RAW_DIR]: the last component of its path and the
    dictionaries that [csv.DictReader] gives for its rows. *)
Record csv_file := {
  name : string;
  rows : list (gmap string string)
}.

(** [row.get("pcds") or row.get("pcd") or ""] *)
Definition pc_raw (row : gmap string string) : string :=
  Py.get_or row "pcds" (Py.get_or row "pcd" "").

(** [float(s) if s else None]: the outer [None] is ValueError. *)
Definition opt_float (s : string) : option (option float) :=
  if Py.truthy s then
    match float_of_str s with
    | Some x => Some (Some x)
    | None => None
    end
  else Some None.

Inductive row_result :=
  | Skip
  | Entry (pc : string) (g : Geo.t float)
  | Raise.

(** The body of the loop of [ingest_csv] for one row, up to [batch.append]. *)
Definition parse_row (row : gmap string string) : row_result :=
  let raw := pc_raw row in
  if negb (Py.truthy raw) then Skip
  else
    let pc := normalise_postcode raw in
    let lat_s := Py.strip (Py.get_or row "lat" "") in
    let lon_s := Py.strip (Py.get_or row "long" (Py.get_or row "lon" "")) in
    match opt_float lat_s with
    | None => Raise
    | Some lat =>
        match opt_float lon_s with
        | None => Raise
        | Some lon =>
            Entry pc {| Geo.lat := lat; Geo.lon := lon;
                        Geo.ladcd := Py.or_none (Py.strip (Py.get_or row "ladcd" ""));
                        Geo.ladnm := Py.or_none (Py.strip (Py.get_or row "ladnm" "")) |}
        end
    end.

(** Binding a Python float to a REAL column: a NaN is stored as NULL. *)
Definition bind_real (x : option float) : option float :=
  match x with
  | Some v => if float_is_nan v then None else Some v
  | None => None
  end.

(** INSERT ... ON CONFLICT(postcode) DO UPDATE SET lat, lon, ladcd, ladnm. *)
Definition upsert (t : gmap string (Geo.t float)) (kv : string * Geo.t float)
  : gmap string (Geo.t float) :=
  <[kv.1 := {| Geo.lat := bind_real (Geo.lat kv.2); Geo.lon := bind_real (Geo.lon kv.2);
               Geo.ladcd := Geo.ladcd kv.2; Geo.ladnm := Geo.ladnm kv.2 |}]> t.

(** [upsert_batch]: the table after the commit and [cur.rowcount]. *)
Definition upsert_batch (t : gmap string (Geo.t float)) (batch : list (string * Geo.t float))
  : gmap string (Geo.t float) * Z :=
  (foldl upsert t batch, Z.of_nat (length batch)).

Record loop_state := {
  batch : list (string * Geo.t float);
  stored : gmap string (Geo.t float);
  i : Z;
  total : Z;
  progress : list Z
}.

(** One iteration of [for i, row in enumerate(reader, start=1)]. *)
Definition step (st : loop_state) (row : gmap string string) : option loop_state :=
  let i' := i st + 1 in
  match parse_row row with
  | Skip =>
      Some {| batch := batch st; stored := stored st; i := i';
              total := total st; progress := progress st |}
  | Raise => None
  | Entry pc g =>
      let b := (batch st ++ [(pc, g)])%list in
      if Z.of_nat (length b) >=? BATCH_SIZE then
        let '(t, n) := upsert_batch (stored st) b in
        Some {| batch := []; stored := t; i := i'; total := total st + n;
                progress := (progress st ++ [i'])%list |}
      else
        Some {| batch := b; stored := stored st; i := i';
                total := total st; progress := progress st |}
  end.

(** Everything [ingest_csv] lets the outside see besides the table: the
    progress lines and the final "Upserted approx" figure. *)
Record report := {
  upserted : Z;
  progress_lines : list Z
}.

Fixpoint ingest_loop (rows : list (gmap string string)) (st : loop_state)
  : run (gmap string (Geo.t float)) report :=
  match rows with
  | row :: rest =>
      match step st row with
      | Some st' => ingest_loop rest st'
      | None => Aborted (stored st)
      end
  | [] =>
      match batch st with
      | [] => Finished {| upserted := total st; progress_lines := progress st |} (stored st)
      | b =>
          let '(t, n) := upsert_batch (stored st) b in
          Finished {| upserted := total st + n; progress_lines := progress st |} t
      end
  end.

Definition init (t : gmap string (Geo.t float)) : loop_state :=
  {| batch := []; stored := t; i := 0; total := 0; progress := [] |}.

Definition ingest_csv (t : gmap string (Geo.t float)) (path : csv_file)
  : run (gmap string (Geo.t float)) report :=
  ingest_loop (rows path) (init t).

(** The SELECT of [build_region]. *)
Definition in_region (g : Geo.t float) : bool :=
  match Geo.ladnm g, Geo.lat g, Geo.lon g with
  | Some nm, Some _, Some _ => bool_decide (nm ∈ LAD_NAMES_REGION)
  | _, _, _ => false
  end.

Definition region_rows (t : gmap string (Geo.t float)) : list (string * Geo.t float) :=
  filter (fun kv => in_region kv.2 = true) (map_to_list t).

(** The loop of [main] that picks the file to load. *)
Fixpoint first_uk (csvs : list csv_file) : option csv_file :=
  match csvs with
  | [] => None
  | p :: rest => if Py.endswith (Py.upper (name p)) "_UK.CSV" then Some p else first_uk rest
  end.

Definition chosen (csvs : list csv_file) : option csv_file :=
  match first_uk csvs with
  | Some p => Some p
  | None => head csvs
  end.

(** [ensure_schema]: CREATE TABLE IF NOT EXISTS. *)
Definition ensure_schema (d : db float) : db float :=
  {| postcode_geo := Some (default ∅ (postcode_geo d));
     postcode_geo_region := postcode_geo_region d;
     ppd_sales := ppd_sales d;
     ppd_sales_geo := ppd_sales_geo d;
     ppd_sales_geo_region := ppd_sales_geo_region d;
     heatmap_tiles := heatmap_tiles d |}.

Definition set_geo (d : db float) (t : gmap string (Geo.t float)) : db float :=
  {| postcode_geo := Some t;
     postcode_geo_region := postcode_geo_region d;
     ppd_sales := ppd_sales d;
     ppd_sales_geo := ppd_sales_geo d;
     ppd_sales_geo_region := ppd_sales_geo_region d;
     heatmap_tiles := heatmap_tiles d |}.

Definition set_region (d : db float) (r : option (list (string * Geo.t float))) : db float :=
  {| postcode_geo := postcode_geo d;
     postcode_geo_region := r;
     ppd_sales := ppd_sales d;
     ppd_sales_geo := ppd_sales_geo d;
     ppd_sales_geo_region := ppd_sales_geo_region d;
     heatmap_tiles := heatmap_tiles d |}.

(** [build_region]: DROP TABLE IF EXISTS, then CREATE TABLE ... AS SELECT. *)
Definition build_region (d : db float) : db float :=
  set_region d (Some (region_rows (default ∅ (postcode_geo d)))).

(** [main]. [found] is [None] when [RAW_DIR] does not exist, and otherwise
    the sorted list that [find_csv_files] returns. *)
Definition main (found : option (list csv_file)) (d : db float) : run (db float) report :=
  match found with
  | None => Aborted d
  | Some csvs =>
      match chosen csvs with
      | None => Aborted d
      | Some p =>
          let d1 := ensure_schema d in
          match ingest_csv (default ∅ (postcode_geo d1)) p with
          | Aborted t => Aborted (set_geo d1 t)
          | Finished rep t => Finished rep (build_region (set_geo d1 t))
          end
      end
  end.

End WithFloat.
Arguments loop_state : clear implicits.
Arguments row_result : clear implicits.
End Onspd.

(** ** Statements on the store

    The derived tables are rebuilt by single SQL statements that the sqlite3
    module runs outside any transaction (it opens one only for INSERT, UPDATE,
    DELETE and REPLACE), so each statement is committed when it returns. A
    rebuild is therefore the list of its statements, and what another
    connection can read during it is the list of the states between them. *)

Section Script.
Context {St : Type}.

(** The committed states, one after each statement, up to the first statement
    that raises. *)
Fixpoint trace (stmts : list (St -> option St)) (d : St) : list St :=
  match stmts with
  | [] => []
  | s :: rest =>
      match s d with
      | Some d' => d' :: trace rest d'
      | None => []
      end
  end.

(** Running the statements: the last committed state, and whether all of them
    ran. *)
Definition exec (stmts : list (St -> option St)) (d : St) : run St unit :=
  let tr := trace stmts d in
  if (length tr =? length stmts)%nat then Finished tt (List.last tr d)
  else Aborted (List.last tr d).

End Script.

(** ** Spatial join ([build_joined_tables] and [main] of [ingest_ppd.py]) *)

Module Join.
Section WithFloat.
Context {float : Type} `{!PyFloat float}.

(** The SELECT list of both joins. *)
Definition joined_row (p : string * Sale.t) (g : string * Geo.t float) : Joined.t float :=
  {| Joined.transaction_id := Some p.1;
     Joined.price := Some (Sale.price p.2);
     Joined.transfer_date := Some (Sale.transfer_date p.2);
     Joined.postcode := Some (Sale.postcode p.2);
     Joined.property_type := Sale.property_type p.2;
     Joined.new_build := Sale.new_build p.2;
     Joined.tenure := Sale.tenure p.2;
     Joined.lat := Geo.lat g.2;
     Joined.lon := Geo.lon g.2;
     Joined.ladnm := Geo.ladnm g.2 |}.

(** ON p.postcode = g.postcode WHERE g.lat IS NOT NULL AND g.lon IS NOT NULL *)
Definition matches (p : string * Sale.t) (g : string * Geo.t float) : bool :=
  bool_decide (Sale.postcode p.2 = g.1)
  && bool_decide (is_Some (Geo.lat g.2))
  && bool_decide (is_Some (Geo.lon g.2)).

(** FROM ppd_sales p JOIN <reference table> g ... *)
Definition join (sales : list (string * Sale.t)) (refs : list (string * Geo.t float))
  : list (Joined.t float) :=
  flat_map (fun p => map (joined_row p) (List.filter (matches p) refs)) sales.

Definition set_joined_uk (d : db float) (t : option (list (Joined.t float))) : db float :=
  {| postcode_geo := postcode_geo d;
     postcode_geo_region := postcode_geo_region d;
     ppd_sales := ppd_sales d;
     ppd_sales_geo := t;
     ppd_sales_geo_region := ppd_sales_geo_region d;
     heatmap_tiles := heatmap_tiles d |}.

Definition set_joined_region (d : db float) (t : option (list (Joined.t float))) : db float :=
  {| postcode_geo := postcode_geo d;
     postcode_geo_region := postcode_geo_region d;
     ppd_sales := ppd_sales d;
     ppd_sales_geo := ppd_sales_geo d;
     ppd_sales_geo_region := t;
     heatmap_tiles := heatmap_tiles d |}.

(** DROP TABLE IF EXISTS ppd_sales_geo *)
Definition drop_joined_uk (d : db float) : option (db float) := Some (set_joined_uk d None).

(** CREATE TABLE ppd_sales_geo AS SELECT ... FROM ppd_sales p JOIN postcode_geo g:
    an error when the table is there already or a source table is missing. *)
Definition create_joined_uk (d : db float) : option (db float) :=
  match ppd_sales_geo d, ppd_sales d, postcode_geo d with
  | None, Some p, Some g =>
      Some (set_joined_uk d (Some (join (map_to_list p) (map_to_list g))))
  | _, _, _ => None
  end.

Definition drop_joined_region (d : db float) : option (db float) := Some (set_joined_region d None).

Definition create_joined_region (d : db float) : option (db float) :=
  match ppd_sales_geo_region d, ppd_sales d, postcode_geo_region d with
  | None, Some p, Some g => Some (set_joined_region d (Some (join (map_to_list p) g)))
  | _, _, _ => None
  end.

(** The statements of [build_joined_tables] that change a table; the region
    part is there when [postcode_geo_region] exists. (The CREATE INDEX
    statements and the commits change no table.) *)
Definition build_joined_tables (d : db float) : list (db float -> option (db float)) :=
  [drop_joined_uk; create_joined_uk] ++
  match postcode_geo_region d with
  | Some _ => [drop_joined_region; create_joined_region]
  | None => []
  end.

(** [ensure_schema] of [ingest_ppd.py]: CREATE TABLE IF NOT EXISTS ppd_sales. *)
Definition ensure_schema (d : db float) : db float :=
  {| postcode_geo := postcode_geo d;
     postcode_geo_region := postcode_geo_region d;
     ppd_sales := Some (default ∅ (ppd_sales d));
     ppd_sales_geo := ppd_sales_geo d;
     ppd_sales_geo_region := ppd_sales_geo_region d;
     heatmap_tiles := heatmap_tiles d |}.

Definition set_sales (d : db float) (t : gmap string Sale.t) : db float :=
  {| postcode_geo := postcode_geo d;
     postcode_geo_region := postcode_geo_region d;
     ppd_sales := Some t;
     ppd_sales_geo := ppd_sales_geo d;
     ppd_sales_geo_region := ppd_sales_geo_region d;
     heatmap_tiles := heatmap_tiles d |}.

(** [main] of [ingest_ppd.py]: load, check that [postcode_geo] is there,
    rebuild the joined tables. *)
Definition main (ppd_csv ppd_csv_alt : option (list (list string))) (d : db float)
  : run (db float) Ppd.report :=
  let d1 := ensure_schema d in
  match Ppd.ingest_ppd ppd_csv ppd_csv_alt (default ∅ (ppd_sales d1)) with
  | Aborted t => Aborted (set_sales d1 t)
  | Finished rep t =>
      let d2 := set_sales d1 t in
      match postcode_geo d2 with
      | None => Aborted d2
      | Some _ =>
          match exec (build_joined_tables d2) d2 with
          | Finished _ d3 => Finished rep d3
          | Aborted d3 => Aborted d3
          end
      end
  end.

End WithFloat.
End Join.

(** ** Grid aggregation ([build_heatmap_tiles.py]) *)

Module Tiles.

(** *** The aggregate query, for any kind of cell key *)

Section Query.
Context {K : Type} `{EqDecision K}.

(** A row of the CTE [ranked]. *)
Record ranked_row := {
  cell : K;
  r_price : Z;
  rn : Z;
  cnt : Z
}.

(** The prices of the rows of [binned] that lie in cell [k]. *)
Definition cell_prices (binned : list (K * Z)) (k : K) : list Z :=
  map snd (filter (fun r => r.1 = k) binned).

(** ROW_NUMBER() over the rows of one partition in the order of the window:
    [next] is the number of the first row, [n] the COUNT( * ) of the
    partition. *)
Fixpoint row_numbers (k : K) (n next : Z) (sorted : list Z) : list ranked_row :=
  match sorted with
  | [] => []
  | p :: rest =>
      {| cell := k; r_price := p; rn := next; cnt := n |}
      :: row_numbers k n (next + 1) rest
  end.

(** ROW_NUMBER() OVER (PARTITION BY cell ORDER BY price) and
    COUNT( * ) OVER (PARTITION BY cell), for the partition of cell [k]. *)
Definition rank_partition (k : K) (prices : list Z) : list ranked_row :=
  let sorted := merge_sort Z.le prices in
  row_numbers k (Z.of_nat (length sorted)) 1 sorted.

Definition ranked (binned : list (K * Z)) : list ranked_row :=
  flat_map (fun k => rank_partition k (cell_prices binned k))
           (remove_dups (map fst binned)).

(** AVG over the non-NULL values; NULL when there is none. *)
Definition AVG (xs : list Z) : option Q :=
  match xs with
  | [] => None
  | _ => Some (Qdiv (inject_Z (foldr Z.add 0 xs)) (inject_Z (Z.of_nat (length xs))))
  end.

(** CASE WHEN rn IN ((cnt + 1) / 2, (cnt + 2) / 2) THEN price END, with
    SQLite's integer division. *)
Definition median_case (r : ranked_row) : option Z :=
  if (rn r =? Z.quot (cnt r + 1) 2) || (rn r =? Z.quot (cnt r + 2) 2)
  then Some (r_price r) else None.

(** A row of the final SELECT before HAVING. *)
Record group_row := {
  g_cell : K;
  g_sales_count : Z;
  g_avg_price : option Q;
  g_median_price : option Q
}.

(** SELECT ... FROM ranked GROUP BY lat_bin, lon_bin, cnt *)
Definition grouped (binned : list (K * Z)) : list group_row :=
  let rk := ranked binned in
  map (fun gk : K * Z =>
         let members := filter (fun r => (cell r, cnt r) = gk) rk in
         {| g_cell := gk.1;
            g_sales_count := gk.2;
            g_avg_price := AVG (map r_price members);
            g_median_price := AVG (omap median_case members) |})
      (remove_dups (map (fun r => (cell r, cnt r)) rk)).

(** HAVING cnt >= 5 *)
Definition having (g : group_row) : bool := g_sales_count g >=? 5.

Definition select_tiles (binned : list (K * Z)) : list group_row :=
  List.filter having (grouped binned).

End Query.

Arguments ranked_row : clear implicits.
Arguments group_row : clear implicits.

(** *** The median as the specification words it *)

(** The value at rank [r], ranks counted from 1. *)
Definition at_rank (sorted : list Z) (r : nat) : Z := nth (r - 1) sorted 0.

Definition rank_median (sorted : list Z) : Q :=
  let n := length sorted in
  if Nat.odd n then inject_Z (at_rank sorted ((n + 1) / 2))
  else ((inject_Z (at_rank sorted (n / 2)) + inject_Z (at_rank sorted (n / 2 + 1))) / 2)%Q.

(** *** The tile table *)

Section WithFloat.
Context {float : Type} `{!PyFloat float}.

Definition GRID_DEGREES : float := float_centi.

(** CAST(FLOOR(x / 0.01) * 0.01 AS REAL) *)
Definition bin (x : float) : float :=
  float_mul (float_floor (float_div x GRID_DEGREES)) GRID_DEGREES.

(** The CTE [binned]. *)
Definition binned (source : list (Joined.t float)) : list (float * float * Z) :=
  omap (fun r =>
          match Joined.lat r, Joined.lon r, Joined.price r with
          | Some la, Some lo, Some p => Some ((bin la, bin lo), p)
          | _, _, _ => None
          end) source.

Definition tile_of (g : group_row (float * float)) : Tile.t float :=
  {| Tile.lat_bin := (g_cell g).1;
     Tile.lon_bin := (g_cell g).2;
     Tile.sales_count := g_sales_count g;
     Tile.avg_price := g_avg_price g;
     Tile.median_price := g_median_price g |}.

(** The rows of CREATE TABLE heatmap_tiles AS ... *)
Definition build_tiles (source : list (Joined.t float)) : list (Tile.t float) :=
  map tile_of (select_tiles (binned source)).

Inductive source_table := JOINED_UK | JOINED_REGION.

(** The choice of the source: the region table when it exists and has rows. *)
Definition choose_source (d : db float) : source_table :=
  match ppd_sales_geo_region d with
  | Some (_ :: _) => JOINED_REGION
  | _ => JOINED_UK
  end.

Definition read_source (s : source_table) (d : db float) : option (list (Joined.t float)) :=
  match s with
  | JOINED_UK => ppd_sales_geo d
  | JOINED_REGION => ppd_sales_geo_region d
  end.

Definition set_tiles (d : db float) (t : option (list (Tile.t float))) : db float :=
  {| postcode_geo := postcode_geo d;
     postcode_geo_region := postcode_geo_region d;
     ppd_sales := ppd_sales d;
     ppd_sales_geo := ppd_sales_geo d;
     ppd_sales_geo_region := ppd_sales_geo_region d;
     heatmap_tiles := t |}.

(** DROP TABLE IF EXISTS heatmap_tiles *)
Definition drop_tiles (d : db float) : option (db float) := Some (set_tiles d None).

(** CREATE TABLE heatmap_tiles AS ...: an error when the source table is
    missing. *)
Definition create_tiles (s : source_table) (d : db float) : option (db float) :=
  match heatmap_tiles d, read_source s d with
  | None, Some rows => Some (set_tiles d (Some (build_tiles rows)))
  | _, _ => None
  end.

(** The statements of [main] that change a table. *)
Definition main (d : db float) : list (db float -> option (db float)) :=
  [drop_tiles; create_tiles (choose_source d)].

End WithFloat.
End Tiles.

(** ** An implementation of the float operations by exact rationals

    Used to evaluate the definitions on concrete tables. Values are kept in
    lowest terms, so that equal numbers are equal terms; [float_of_str] reads
    plain decimal literals (sign, digits, an optional fraction). *)

Module ExactFloat.

Definition Q_eq_dec : EqDecision Q.
Proof. solve_decision. Defined.

Fixpoint fraction (num : Z) (den : positive) (seen : bool) (s : string) : option Q :=
  match s with
  | EmptyString => if seen then Some (Qred (num # den)) else None
  | String c s' =>
      if Py.is_digit c then fraction (10 * num + Py.digit_val c) (10 * den) true s'
      else None
  end.

Fixpoint decimal (acc : Z) (seen : bool) (s : string) : option Q :=
  match s with
  | EmptyString => if seen then Some (inject_Z acc) else None
  | String c s' =>
      if Py.is_digit c then decimal (10 * acc + Py.digit_val c) true s'
      else if Ascii.eqb c "."%char then fraction acc 1 seen s'
      else None
  end.

Definition of_str (s : string) : option Q :=
  match Py.strip s with
  | String "-"%char s' => (fun q => Qred (Qopp q)) <$> decimal 0 false s'
  | String "+"%char s' => decimal 0 false s'
  | s' => decimal 0 false s'
  end.

#[global] Instance exact : PyFloat Q := {|
  float_eq_dec := Q_eq_dec;
  float_of_str := of_str;
  float_is_nan := fun _ => false;
  float_div := fun a b => Qred (Qdiv a b);
  float_mul := fun a b => Qred (Qmult a b);
  float_floor := fun a => inject_Z (Qfloor a);
  float_centi := (1 # 100)%Q
|}.

End ExactFloat.

Example exact_of_str :
  ExactFloat.of_str "52.19" = Some (5219 # 100)%Q /\
  ExactFloat.of_str "-2.5" = Some (- 5 # 2)%Q /\
  ExactFloat.of_str "x" = None.
Proof. repeat split; reflexivity. Qed.

Example exact_bin :
  @Tiles.bin Q ExactFloat.exact (5219 # 100)%Q = (5219 # 100)%Q /\
  @Tiles.bin Q ExactFloat.exact (52195 # 1000)%Q = (5219 # 100)%Q /\
  @Tiles.bin Q ExactFloat.exact (- 2215 # 1000)%Q = (- 111 # 50)%Q.
Proof. repeat split; reflexivity. Qed.

(** * Properties *)

Lemma finished_inv {St A : Type} (r : run St A) :
  finished r = true -> exists a : A, r = Finished a (committed r).
Proof. destruct r; [by eexists | done]. Qed.

(** ** Substrings *)

(** [sub] occurs in [s]. *)
Definition substring (sub s : string) : Prop :=
  exists pre post : string, s = pre ++ sub ++ post.

Lemma append_cons (c : ascii) (a b : string) : String c a ++ b = String c (a ++ b).
Proof. reflexivity. Qed.

Lemma append_nil (b : string) : EmptyString ++ b = b.
Proof. reflexivity. Qed.

Lemma prefix_spec (a s : string) :
  String.prefix a s = true <-> exists post : string, s = a ++ post.
Proof.
  revert s. induction a as [|c a IH]; intros s.
  - destruct s; simpl; (split; [intros _; by eexists | done]).
  - destruct s as [|c' s]; simpl.
    + split; [done | intros [post Hp]; discriminate].
    + destruct (Ascii.ascii_dec c c') as [->|Hne].
      * rewrite IH. split; intros [post Hp]; exists post;
          rewrite append_cons in *; congruence.
      * split; [done | intros [post Hp]; rewrite append_cons in Hp; congruence].
Qed.

Lemma str_in_spec (sub s : string) : Py.str_in sub s = true <-> substring sub s.
Proof.
  unfold substring. induction s as [|c s IH]; cbn [Py.str_in].
  - rewrite orb_false_r, prefix_spec. split.
    + intros [post Hp]. by exists EmptyString, post.
    + intros [[|c pre] [post Hp]]; [by exists post | discriminate].
  - rewrite orb_true_iff, prefix_spec, IH. split.
    + intros [[post Hp] | (pre & post & Hp)].
      * by exists EmptyString, post.
      * exists (String c pre), post. rewrite append_cons. by rewrite Hp.
    + intros [[|c' pre] [post Hp]].
      * left. by exists post.
      * right. exists pre, post. rewrite append_cons in Hp. congruence.
Qed.

Lemma str_in_false (sub s : string) : Py.str_in sub s = false <-> ~ substring sub s.
Proof. rewrite <- str_in_spec. destruct (Py.str_in sub s); split; congruence. Qed.

(** ** Header detection (C5) *)

(** The text that [detect_header] inspects, and the rule the specification
    gives for it. *)
Definition header_text (first_row : list string) : string :=
  Py.lower (Py.join "," first_row).

Definition header_rule (first_row : list string) : Prop :=
  (substring "transaction" (header_text first_row)
   /\ substring "identifier" (header_text first_row))
  \/ (substring "price" (header_text first_row)
      /\ substring "postcode" (header_text first_row)).

Lemma detect_header_spec (first_row : list string) :
  Ppd.detect_header first_row = true <-> header_rule first_row.
Proof.
  unfold header_rule, header_text, Ppd.detect_header.
  destruct first_row as [|x xs].
  - split; [done |]. simpl.
    intros [[H%str_in_spec _] | [H%str_in_spec _]]; discriminate.
  - cbv zeta. rewrite orb_true_iff, !andb_true_iff, !str_in_spec. tauto.
Qed.

(** A headerless first row of a price-paid download. *)
Definition guid_row : list string :=
  [ "{5BBE9CB3-6332-4EB0-9CD3-8737CEA4A65A}"; "100000"; "2025-01-01"; "EC1A1BB";
    "D"; "N"; "F"; "1"; ""; "HIGH ROAD"; ""; "LONDON"; "CITY OF LONDON";
    "GREATER LONDON"; "A"; "A" ].

(** C5. The transaction loader drops the first row exactly when its joined,
    lower-cased text contains both "transaction" and "identifier", or both
    "price" and "postcode"; otherwise the first row goes through the loop as
    data, as does a first row that starts with a GUID, a price, a date and a
    postcode. *)
Theorem header_detection (first_row : list string) (rest : list (list string))
    (alt : option (list (list string))) (t : gmap string Sale.t) :
  (Ppd.detect_header first_row = true <-> header_rule first_row)
  /\ (header_rule first_row ->
      Ppd.ingest_ppd (Some (first_row :: rest)) alt t
      = Ppd.ingest_rows rest (Ppd.init t))
  /\ (~ header_rule first_row ->
      Ppd.ingest_ppd (Some (first_row :: rest)) alt t
      = Ppd.ingest_rows (first_row :: rest) (Ppd.init t))
  /\ Ppd.ingest_ppd (Some (guid_row :: rest)) alt t
     = Ppd.ingest_rows (guid_row :: rest) (Ppd.init t).
Proof.
  split; [apply detect_header_spec |].
  unfold Ppd.ingest_ppd, Ppd.data_rows. repeat split.
  - intros Hh%detect_header_spec. by rewrite Hh.
  - intros Hn. destruct (Ppd.detect_header first_row) eqn:E; [|done].
    by apply detect_header_spec in E.
Qed.

Lemma header_detection_witness :
  header_rule ["Price"; "Date"; "Postcode"]
  /\ Ppd.ingest_ppd (Some (["Price"; "Date"; "Postcode"] :: [guid_row])) None ∅
     = Ppd.ingest_rows [guid_row] (Ppd.init ∅)
  /\ ~ header_rule guid_row
  /\ Ppd.ingest_ppd (Some [guid_row]) None ∅
     = Ppd.ingest_rows [guid_row] (Ppd.init ∅).
Proof.
  assert (H1 : header_rule ["Price"; "Date"; "Postcode"])
    by (apply detect_header_spec; vm_compute; reflexivity).
  assert (H2 : ~ header_rule guid_row)
    by (intros Hh%detect_header_spec; vm_compute in Hh; discriminate).
  split; [exact H1 |]. split.
  - exact (proj1 (proj2 (header_detection _ [guid_row] None ∅)) H1).
  - split; [exact H2 |].
    exact (proj1 (proj2 (proj2 (header_detection guid_row [] None ∅))) H2).
Defined.

(** ** Rows with a bad price (C3) *)

(** What a Python condition [x or ""] followed by [int(...)] accepts: the
    price field reads as an integer that is not negative. *)
Definition non_negative_integer (s : string) : Prop :=
  exists z : Z, Py.int_of_str (Py.strip s) = Some z /\ 0 <= z.

(** The claim as the specification words it: a row whose price field is not a
    non-negative integer is not written. *)
Definition rejects_unless_non_negative : Prop :=
  forall row : list string,
    ~ non_negative_integer (Ppd.col row 1) -> Ppd.parse_row row = None.

Definition negative_row : list string :=
  ["TX1"; "-5"; "2025-01-01"; "ec1a 1bb"; "D"; "N"; "F"].

(** The loop states that agree on everything but the count of rows read. *)
Definition same_writes (a b : Ppd.loop_state) : Prop :=
  Ppd.batch a = Ppd.batch b /\ Ppd.stored a = Ppd.stored b
  /\ Ppd.total_rows_written a = Ppd.total_rows_written b.

(** The table and the count of written rows that a run ends with. *)
Definition writes (r : run (gmap string Sale.t) Ppd.report)
  : gmap string Sale.t * option Z :=
  match r with
  | Finished rep t => (t, Some (Ppd.rows_written rep))
  | Aborted t => (t, None)
  end.

Lemma step_same_writes (a b : Ppd.loop_state) (row : list string) :
  same_writes a b ->
  match Ppd.step a row, Ppd.step b row with
  | Some a', Some b' => same_writes a' b'
  | None, None => Ppd.stored a = Ppd.stored b
  | _, _ => False
  end.
Proof.
  intros (Hb & Hs & Hw). unfold Ppd.step. rewrite Hb, Hs, Hw.
  destruct (Ppd.parse_row row) as [entry|]; [|by repeat split].
  destruct (Z.of_nat _ >=? BATCH_SIZE).
  - destruct (Ppd.executemany _ _); [by repeat split | done].
  - by repeat split.
Qed.

Lemma ingest_rows_same_writes (rows : list (list string)) (a b : Ppd.loop_state) :
  same_writes a b -> writes (Ppd.ingest_rows rows a) = writes (Ppd.ingest_rows rows b).
Proof.
  revert a b. induction rows as [|row rows IH]; intros a b Hab.
  - destruct Hab as (Hb & Hs & Hw). simpl. rewrite Hb, Hs, Hw.
    destruct (Ppd.batch b); [done |]. by destruct (Ppd.executemany _ _).
  - simpl. pose proof (step_same_writes a b row Hab) as Hstep.
    destruct (Ppd.step a row), (Ppd.step b row); try done.
    + by apply IH.
    + simpl. by rewrite Hstep.
Qed.

Lemma step_skipped (st : Ppd.loop_state) (row : list string) :
  Ppd.parse_row row = None ->
  exists st', Ppd.step st row = Some st' /\ same_writes st' st.
Proof. intros Hp. unfold Ppd.step. rewrite Hp. eexists. by repeat split. Qed.

Lemma ingest_rows_skipped (pre post : list (list string)) (row : list string)
    (a b : Ppd.loop_state) :
  Ppd.parse_row row = None -> same_writes a b ->
  writes (Ppd.ingest_rows (pre ++ row :: post) a)
  = writes (Ppd.ingest_rows (pre ++ post) b).
Proof.
  intros Hp. revert a b. induction pre as [|r pre IH]; intros a b Hab.
  - destruct (step_skipped a row Hp) as (a' & Ha & Hsim). simpl. rewrite Ha.
    apply ingest_rows_same_writes. destruct Hsim as (? & ? & ?), Hab as (? & ? & ?).
    repeat split; congruence.
  - simpl. pose proof (step_same_writes a b r Hab) as Hstep.
    destruct (Ppd.step a r), (Ppd.step b r); try done.
    + by apply IH.
    + simpl. by rewrite Hstep.
Qed.

(** C3, as the code has it. A row whose price field does not read as an
    integer ([int] raises) is skipped: the loop body appends nothing for it,
    and the table and the count of written rows at the end of the run are
    those of the same file without the row. *)
Theorem unparsable_price_skipped (row : list string) :
  Py.int_of_str (Py.strip (Ppd.col row 1)) = None ->
  Ppd.parse_row row = None
  /\ forall (pre post : list (list string)) (t : gmap string Sale.t),
       writes (Ppd.ingest_rows (pre ++ row :: post) (Ppd.init t))
       = writes (Ppd.ingest_rows (pre ++ post) (Ppd.init t)).
Proof.
  intros Hint.
  assert (Hp : Ppd.parse_row row = None).
  { unfold Ppd.parse_row. rewrite Hint.
    destruct (length row <? 7)%nat; [done |].
    by destruct (negb (Py.truthy (Py.strip (Ppd.col row 0)))). }
  split; [exact Hp |]. intros pre post t.
  apply ingest_rows_skipped; [exact Hp | done].
Qed.

Definition bad_price_row : list string :=
  ["TX2"; "12o000"; "2025-01-01"; "EC1A 1BB"; "D"; "N"; "F"].

Lemma unparsable_price_skipped_witness :
  Py.int_of_str (Py.strip (Ppd.col bad_price_row 1)) = None
  /\ Ppd.parse_row bad_price_row = None
  /\ forall (pre post : list (list string)) (t : gmap string Sale.t),
       writes (Ppd.ingest_rows (pre ++ bad_price_row :: post) (Ppd.init t))
       = writes (Ppd.ingest_rows (pre ++ post) (Ppd.init t)).
Proof.
  split; [reflexivity |]. apply (unparsable_price_skipped bad_price_row). reflexivity.
Defined.

(** C3, as the specification words it, fails: a negative price reads as an
    integer, and the row is written with it. *)
Lemma negative_price_written :
  ~ rejects_unless_non_negative
  /\ committed (Ppd.ingest_ppd (Some [negative_row]) None ∅) !! "TX1"
     = Some {| Sale.price := -5; Sale.transfer_date := "2025-01-01";
               Sale.postcode := "EC1A1BB"; Sale.property_type := Some "D";
               Sale.new_build := Some "N"; Sale.tenure := Some "F";
               Sale.paon := None; Sale.saon := None; Sale.street := None;
               Sale.locality := None; Sale.town := None; Sale.district := None;
               Sale.county := None; Sale.ppd_category_type := None;
               Sale.record_status := None |}.
Proof.
  split.
  - intros Hclaim. specialize (Hclaim negative_row).
    assert (Hneg : ~ non_negative_integer (Ppd.col negative_row 1)).
    { intros (z & Hz & Hle). vm_compute in Hz. injection Hz as <-. lia. }
    specialize (Hclaim Hneg). vm_compute in Hclaim. discriminate.
  - vm_compute. reflexivity.
Qed.

Local Open Scope list_scope.

(** ** The reference table after a load *)

Section ReferenceTable.
Context {float : Type} `{!PyFloat float}.

(** The record that [upsert] stores for a tuple of the batch. *)
Definition as_stored (g : Geo.t float) : Geo.t float :=
  {| Geo.lat := Onspd.bind_real (Geo.lat g); Geo.lon := Onspd.bind_real (Geo.lon g);
     Geo.ladcd := Geo.ladcd g; Geo.ladnm := Geo.ladnm g |}.

(** The last tuple of a list of upserts with key [k]. *)
Fixpoint latest (k : string) (l : list (string * Geo.t float)) : option (Geo.t float) :=
  match l with
  | [] => None
  | kv :: rest =>
      match latest k rest with
      | Some g => Some g
      | None => if decide (kv.1 = k) then Some kv.2 else None
      end
  end.

(** Last row wins: after a list of upserts a key holds its last tuple, and a
    key that the list does not mention holds what it held. *)
Lemma lookup_upserts (l : list (string * Geo.t float)) (t : gmap string (Geo.t float))
    (k : string) :
  foldl Onspd.upsert t l !! k
  = match latest k l with
    | Some g => Some (as_stored g)
    | None => t !! k
    end.
Proof.
  revert t. induction l as [|[k' g] l IH]; intros t; [done |].
  simpl. rewrite IH. destruct (latest k l); [done |].
  unfold Onspd.upsert. simpl. destruct (decide (k' = k)) as [->|Hne].
  - by rewrite lookup_insert_eq.
  - by rewrite lookup_insert_ne.
Qed.

Lemma upserts_twice (l : list (string * Geo.t float)) (t : gmap string (Geo.t float)) :
  foldl Onspd.upsert (foldl Onspd.upsert t l) l = foldl Onspd.upsert t l.
Proof.
  apply map_eq. intros k. rewrite !lookup_upserts.
  by destruct (latest k l).
Qed.

Lemma latest_elem (k : string) (g : Geo.t float) (l : list (string * Geo.t float)) :
  (k, g) ∈ l -> is_Some (latest k l).
Proof.
  induction l as [|kv l IH]; [by intros ?%elem_of_nil |].
  intros [<-|Hin]%elem_of_cons; simpl.
  - destruct (latest k l); [done |]. by rewrite decide_True.
  - destruct (IH Hin) as [g' ->]. done.
Qed.

(** The tuples that a run of the loop commits, in order: whole batches, up to
    the row at which [float] raises, and the last partial batch when no row
    raises. It depends on the rows and on the pending batch only. *)
Fixpoint flushed (rows : list (gmap string string)) (pending : list (string * Geo.t float))
  : list (string * Geo.t float) :=
  match rows with
  | [] => pending
  | row :: rest =>
      match Onspd.parse_row row with
      | Onspd.Skip => flushed rest pending
      | Onspd.Raise => []
      | Onspd.Entry pc g =>
          let b := pending ++ [(pc, g)] in
          if Z.of_nat (length b) >=? BATCH_SIZE then b ++ flushed rest [] else flushed rest b
      end
  end.

Lemma committed_ingest_loop (rows : list (gmap string string)) (st : Onspd.loop_state float) :
  committed (Onspd.ingest_loop rows st)
  = foldl Onspd.upsert (Onspd.stored st) (flushed rows (Onspd.batch st)).
Proof.
  revert st. induction rows as [|row rows IH]; intros st.
  - simpl. by destruct (Onspd.batch st).
  - simpl. unfold Onspd.step. destruct (Onspd.parse_row row) as [|pc g|].
    + by rewrite IH.
    + simpl. destruct (Z.of_nat _ >=? BATCH_SIZE).
      * rewrite IH. simpl. symmetry. apply foldl_app.
      * by rewrite IH.
    + done.
Qed.

(** The tuples of the rows that are not skipped. *)
Definition entries (rows : list (gmap string string)) : list (string * Geo.t float) :=
  omap (fun row => match Onspd.parse_row row with
                   | Onspd.Entry pc g => Some (pc, g)
                   | _ => None
                   end) rows.

Lemma finished_ingest_loop (rows : list (gmap string string)) (st : Onspd.loop_state float) :
  finished (Onspd.ingest_loop rows st) = true ->
  flushed rows (Onspd.batch st) = Onspd.batch st ++ entries rows.
Proof.
  revert st. induction rows as [|row rows IH]; intros st.
  - intros _. simpl. by rewrite app_nil_r.
  - simpl. unfold Onspd.step, entries.
    destruct (Onspd.parse_row row) as [|pc g|]; simpl.
    + intros Hf%IH. exact Hf.
    + destruct (Z.of_nat _ >=? BATCH_SIZE); intros Hf%IH; simpl in Hf; rewrite Hf.
      * by rewrite <- app_assoc.
      * by rewrite <- app_assoc.
    + done.
Qed.

(** A load that completes leaves, under each key, the last row of the file
    with that key, and leaves the other keys as they were. *)
Lemma ingest_csv_last_row_wins (t t' : gmap string (Geo.t float)) (p : Onspd.csv_file)
    (rep : Onspd.report) (k : string) :
  Onspd.ingest_csv t p = Finished rep t' ->
  t' !! k = match latest k (entries (Onspd.rows p)) with
            | Some g => Some (as_stored g)
            | None => t !! k
            end.
Proof.
  intros Hrun. unfold Onspd.ingest_csv in Hrun.
  pose proof (committed_ingest_loop (Onspd.rows p) (Onspd.init t)) as Hc.
  pose proof (finished_ingest_loop (Onspd.rows p) (Onspd.init t)) as Hf.
  rewrite Hrun in Hc, Hf. simpl in Hc, Hf. rewrite Hc, Hf by done.
  apply lookup_upserts.
Qed.

End ReferenceTable.

(** ** Skipped rows of the reference loader *)

Section ReferenceRows.
Context {float : Type} `{!PyFloat float}.






(** Whether a run completes depends on the rows and the pending batch, not on
    the table. *)
Lemma finished_ingest_loop_stored (rows : list (gmap string string))
    (a b : Onspd.loop_state float) :
  Onspd.batch a = Onspd.batch b ->
  finished (Onspd.ingest_loop rows a) = finished (Onspd.ingest_loop rows b).
Proof.
  revert a b. induction rows as [|row rows IH]; intros a b Hab.
  - simpl. rewrite Hab. by destruct (Onspd.batch b).
  - simpl. unfold Onspd.step. rewrite Hab.
    destruct (Onspd.parse_row row) as [|pc g|]; [by apply IH | | done].
    destruct (Z.of_nat _ >=? BATCH_SIZE); by apply IH.
Qed.

(** A run that completes met no row at which [float] raises. *)
Lemma finished_no_raise (rows : list (gmap string string)) (st : Onspd.loop_state float)
    (row : gmap string string) :
  finished (Onspd.ingest_loop rows st) = true -> row ∈ rows ->
  Onspd.parse_row row <> Onspd.Raise.
Proof.
  revert st. induction rows as [|r rows IH]; intros st Hf Hin.
  - by apply elem_of_nil in Hin.
  - simpl in Hf. unfold Onspd.step in Hf.
    apply elem_of_cons in Hin as [->|Hin].
    + by destruct (Onspd.parse_row r).
    + destruct (Onspd.parse_row r) as [|pc g|]; [exact (IH _ Hf Hin) | | done].
      destruct (Z.of_nat _ >=? BATCH_SIZE); exact (IH _ Hf Hin).
Qed.

End ReferenceRows.

(** ** Claims on the reference loader (C4, C6, C9, C10) *)

Section ReferenceLoader.
Context {float : Type} `{!PyFloat float}.



(** A string of SPACE characters. *)
Fixpoint only_spaces (s : string) : bool :=
  match s with
  | EmptyString => true
  | String c s' => Ascii.eqb c " "%char && only_spaces s'
  end.

Lemma lstrip_only_spaces (s : string) :
  only_spaces s = true -> Py.lstrip s = EmptyString.
Proof.
  induction s as [|c s IH]; [done |]. simpl.
  intros [->%Ascii.eqb_eq Hs]%andb_true_iff. simpl. by apply IH.
Qed.

Lemma normalise_only_spaces (s : string) :
  only_spaces s = true -> normalise_postcode s = EmptyString.
Proof.
  intros Hs. unfold normalise_postcode, Py.strip.
  by rewrite (lstrip_only_spaces s Hs).
Qed.

(** C10. A row whose raw postcode field is not empty but holds only spaces is
    not skipped: the emptiness test is on the raw field, the key is computed
    after it and is the empty string. When the load completes, the table has
    a row under the empty key. *)
Theorem spaces_postcode_upserted (row : gmap string string) :
  Onspd.pc_raw row <> EmptyString ->
  only_spaces (Onspd.pc_raw row) = true ->
  normalise_postcode (Onspd.pc_raw row) = EmptyString
  /\ Onspd.parse_row row <> Onspd.Skip
  /\ (forall (pc : string) (g : Geo.t float),
        Onspd.parse_row row = Onspd.Entry pc g -> pc = EmptyString)
  /\ (forall (t t' : gmap string (Geo.t float)) (p : Onspd.csv_file) (rep : Onspd.report),
        row ∈ Onspd.rows p ->
        Onspd.ingest_csv t p = Finished rep t' ->
        is_Some (t' !! EmptyString)).
Proof.
  intros Hne Hsp.
  pose proof (normalise_only_spaces _ Hsp) as Hnorm.
  assert (Htruthy : Py.truthy (Onspd.pc_raw row) = true)
    by (destruct (Onspd.pc_raw row); done).
  assert (Hshape : forall pc g, Onspd.parse_row row = Onspd.Entry pc g -> pc = EmptyString).
  { intros pc g. unfold Onspd.parse_row. rewrite Htruthy, Hnorm. simpl.
    destruct (Onspd.opt_float _); [|done].
    destruct (Onspd.opt_float _); [|done]. by intros [= <- _]. }
  assert (Hns : Onspd.parse_row row <> Onspd.Skip).
  { unfold Onspd.parse_row. rewrite Htruthy. simpl.
    destruct (Onspd.opt_float _); [|done]. by destruct (Onspd.opt_float _). }
  repeat split; [exact Hnorm | exact Hns | exact Hshape |].
  intros t t' p rep Hin Hrun.
  assert (Hfin : finished (Onspd.ingest_loop (Onspd.rows p) (Onspd.init t)) = true)
    by (unfold Onspd.ingest_csv in Hrun; by rewrite Hrun).
  pose proof (finished_no_raise _ _ row Hfin Hin) as Hnr.
  destruct (Onspd.parse_row row) as [|pc g|] eqn:Hrow; [done | | done].
  rewrite (Hshape pc g eq_refl) in Hrow.
  rewrite (ingest_csv_last_row_wins t t' p rep EmptyString Hrun).
  assert (Hl : is_Some (latest EmptyString (entries (Onspd.rows p)))).
  { apply (latest_elem _ g), list_elem_of_omap. exists row. by rewrite Hrow. }
  destruct Hl as [g' ->]. done.
Qed.

Lemma ensure_schema_geo (d : db float) :
  default ∅ (postcode_geo (Onspd.ensure_schema d)) = default ∅ (postcode_geo d).
Proof. done. Qed.

Lemma ensure_set_geo (d : db float) (t : gmap string (Geo.t float)) :
  Onspd.ensure_schema (Onspd.set_geo d t) = Onspd.set_geo d t.
Proof. done. Qed.

Lemma set_geo_twice (d : db float) (t t' : gmap string (Geo.t float)) :
  Onspd.set_geo (Onspd.set_geo d t) t' = Onspd.set_geo d t'.
Proof. done. Qed.

Lemma build_region_again (d : db float) (t : gmap string (Geo.t float)) :
  let d' := Onspd.build_region (Onspd.set_geo d t) in
  Onspd.ensure_schema d' = d'
  /\ Onspd.set_geo d' t = d'
  /\ Onspd.build_region (Onspd.set_geo d' t) = d'.
Proof. done. Qed.

(** C9. Loading the same files a second time changes nothing: the store after
    the second run is the store after the first, its reference table
    included. Keys are unique in a table, so there is no duplicate row. *)
Theorem reference_loader_idempotent (found : option (list Onspd.csv_file)) (d : db float) :
  committed (Onspd.main found (committed (Onspd.main found d)))
  = committed (Onspd.main found d)
  /\ postcode_geo (committed (Onspd.main found (committed (Onspd.main found d))))
     = postcode_geo (committed (Onspd.main found d)).
Proof.
  assert (Hmain : committed (Onspd.main found (committed (Onspd.main found d)))
                  = committed (Onspd.main found d)); [|by rewrite Hmain].
  unfold Onspd.main. destruct found as [csvs|]; [|done].
  destruct (Onspd.chosen csvs) as [p|]; [|done].
  set (d1 := Onspd.ensure_schema d).
  set (t := default ∅ (postcode_geo d1)).
  pose proof (committed_ingest_loop (Onspd.rows p) (Onspd.init t)) as Hc.
  unfold Onspd.ingest_csv.
  destruct (Onspd.ingest_loop (Onspd.rows p) (Onspd.init t)) as [rep t1|t1] eqn:Hrun;
    simpl in Hc; cbn [committed].
  - destruct (build_region_again d1 t1) as (He & Hs & Hb).
    set (d' := Onspd.build_region (Onspd.set_geo d1 t1)) in *.
    rewrite He. replace (default ∅ (postcode_geo d')) with t1 by done.
    pose proof (committed_ingest_loop (Onspd.rows p) (Onspd.init t1)) as Hc2.
    simpl in Hc2. rewrite Hc, upserts_twice, <- Hc in Hc2.
    destruct (Onspd.ingest_loop (Onspd.rows p) (Onspd.init t1)) as [rep2 t2|t2];
      simpl in Hc2; subst t2; cbn [committed]; [exact Hb | exact Hs].
  - rewrite ensure_set_geo.
    replace (default ∅ (postcode_geo (Onspd.set_geo d1 t1))) with t1 by done.
    pose proof (committed_ingest_loop (Onspd.rows p) (Onspd.init t1)) as Hc2.
    pose proof (finished_ingest_loop_stored (Onspd.rows p) (Onspd.init t1)
                  (Onspd.init t) eq_refl) as Hf.
    rewrite Hrun in Hf.
    simpl in Hc2. rewrite Hc, upserts_twice, <- Hc in Hc2.
    destruct (Onspd.ingest_loop (Onspd.rows p) (Onspd.init t1)) as [rep2 t2|t2];
      simpl in Hc2, Hf; [done |]. subst t2. cbn [committed]. apply set_geo_twice.
Qed.

End ReferenceLoader.

Section ReferenceFiles.
Context {float : Type} `{!PyFloat float}.

(** The claim C4 as the specification words it: after a run that completes,
    every row with a postcode of every file found has its key in the
    reference table. *)
Definition loads_every_file : Prop :=
  forall (csvs : list Onspd.csv_file) (d d' : db float) (rep : Onspd.report),
    Onspd.main (Some csvs) d = Finished rep d' ->
    forall (p : Onspd.csv_file) (row : gmap string string) (pc : string) (g : Geo.t float),
      p ∈ csvs -> row ∈ Onspd.rows p -> Onspd.parse_row row = Onspd.Entry pc g ->
      exists t : gmap string (Geo.t float), postcode_geo d' = Some t /\ is_Some (t !! pc).

(** The test of the loop of [main] on a file. *)
Definition is_uk (p : Onspd.csv_file) : bool :=
  Py.endswith (Py.upper (Onspd.name p)) "_UK.CSV".

(** [p] is the first file of [csvs] that passes the test. *)
Definition first_passing (csvs : list Onspd.csv_file) (p : Onspd.csv_file) : Prop :=
  exists pre post : list Onspd.csv_file,
    csvs = pre ++ p :: post /\ is_uk p = true /\ Forall (fun q => is_uk q = false) pre.

Lemma first_uk_some (csvs : list Onspd.csv_file) (p : Onspd.csv_file) :
  Onspd.first_uk csvs = Some p -> first_passing csvs p.
Proof.
  induction csvs as [|q csvs IH]; [done |]. simpl. fold (is_uk q).
  destruct (is_uk q) eqn:E.
  - intros [= <-]. by exists [], csvs.
  - intros (pre & post & -> & Hp & Hpre)%IH.
    exists (q :: pre), post. repeat split; [done |]. by constructor.
Qed.

Lemma first_uk_none (csvs : list Onspd.csv_file) :
  Onspd.first_uk csvs = None -> Forall (fun q => is_uk q = false) csvs.
Proof.
  induction csvs as [|q csvs IH]; [by constructor |]. simpl. fold (is_uk q).
  destruct (is_uk q) eqn:E; [done |]. intros Hn%IH. by constructor.
Qed.

Lemma chosen_singleton (p : Onspd.csv_file) : Onspd.chosen [p] = Some p.
Proof. unfold Onspd.chosen. simpl. by destruct (Py.endswith _ _). Qed.

(** C4, as the code has it. Of the files found the loader loads one: the
    first, in sorted order, whose upper-cased name ends in "_UK.CSV", and the
    first of the list when there is none. The other files make no difference
    to the run. Within the loaded file the last row with a key wins, and a
    key the file does not mention keeps the row it had. *)
Theorem loads_chosen_file_only (csvs : list Onspd.csv_file) (p : Onspd.csv_file)
    (d : db float) :
  Onspd.chosen csvs = Some p ->
  (first_passing csvs p
   \/ (Forall (fun q => is_uk q = false) csvs /\ head csvs = Some p))
  /\ Onspd.main (Some csvs) d = Onspd.main (Some [p]) d
  /\ (forall (rep : Onspd.report) (d' : db float),
        Onspd.main (Some csvs) d = Finished rep d' ->
        exists t' : gmap string (Geo.t float),
          postcode_geo d' = Some t'
          /\ forall k : string,
               t' !! k = match latest k (entries (Onspd.rows p)) with
                         | Some g => Some (as_stored g)
                         | None => default ∅ (postcode_geo d) !! k
                         end).
Proof.
  intros Hch. repeat split.
  - unfold Onspd.chosen in Hch. destruct (Onspd.first_uk csvs) as [q|] eqn:Hf.
    + injection Hch as ->. left. by apply first_uk_some.
    + right. split; [by apply first_uk_none | done].
  - unfold Onspd.main. by rewrite Hch, chosen_singleton.
  - intros rep d'. unfold Onspd.main. rewrite Hch.
    destruct (Onspd.ingest_csv _ p) as [rep1 t1|t1] eqn:Hrun; [|done].
    intros [= <- <-]. exists t1. split; [done |]. intros k.
    apply (ingest_csv_last_row_wins _ _ _ _ k Hrun).
Qed.

End ReferenceFiles.

(** *** Concrete files *)

Definition row_aa : gmap string string :=
  list_to_map [("pcds", "AA1 1AA"); ("lat", "52.19"); ("long", "-2.22");
               ("ladcd", "E07000237"); ("ladnm", "Worcester")].

Definition row_aa_moved : gmap string string :=
  list_to_map [("pcds", "aa1 1aa"); ("lat", "52.20"); ("long", "-2.23");
               ("ladcd", "E07000237"); ("ladnm", "Worcester")].

Definition row_bb : gmap string string :=
  list_to_map [("pcds", "BB1 1BB"); ("lat", "53.75"); ("long", "-2.48");
               ("ladcd", "E06000008"); ("ladnm", "Blackburn with Darwen")].


Definition row_spaces : gmap string string :=
  list_to_map [("pcds", "   "); ("lat", "51.5"); ("long", "-0.1");
               ("ladcd", ""); ("ladnm", "")].

Definition file_a : Onspd.csv_file :=
  {| Onspd.name := "ONSPD_A.csv"; Onspd.rows := [row_aa; row_aa_moved] |}.

Definition file_b : Onspd.csv_file :=
  {| Onspd.name := "ONSPD_B.csv"; Onspd.rows := [row_bb] |}.

Definition empty_db : db Q :=
  {| postcode_geo := None; postcode_geo_region := None; ppd_sales := None;
     ppd_sales_geo := None; ppd_sales_geo_region := None; heatmap_tiles := None |}.

Example chosen_uk_file :
  Onspd.chosen [file_a; file_b;
                {| Onspd.name := "ONSPD_NOV_2025_uk.csv"; Onspd.rows := [] |};
                {| Onspd.name := "ONSPD_ZZ_UK.csv"; Onspd.rows := [] |}]
  = Some {| Onspd.name := "ONSPD_NOV_2025_uk.csv"; Onspd.rows := [] |}.
Proof. reflexivity. Qed.

(** C4, as the specification words it, fails: with two files found only the
    first is loaded, and the postcode of the second is not in the table. *)
Lemma second_file_not_loaded : ~ @loads_every_file Q ExactFloat.exact.
Proof.
  intros Hclaim.
  destruct (Onspd.main (Some [file_a; file_b]) empty_db) as [rep d'|] eqn:Hrun;
    [|vm_compute in Hrun; discriminate].
  destruct (Hclaim [file_a; file_b] empty_db d' rep Hrun file_b row_bb "BB11BB"
              {| Geo.lat := Some (215 # 4)%Q; Geo.lon := Some (- 62 # 25)%Q;
                 Geo.ladcd := Some "E06000008";
                 Geo.ladnm := Some "Blackburn with Darwen" |})
    as (t & Ht & Hk).
  - apply elem_of_cons. right. apply elem_of_cons. by left.
  - apply elem_of_cons. by left.
  - vm_compute. reflexivity.
  - vm_compute in Hrun. injection Hrun as _ <-. injection Ht as <-.
    vm_compute in Hk. by destruct Hk.
Qed.

Lemma loads_chosen_file_only_witness :
  Onspd.chosen [file_a; file_b] = Some file_a
  /\ Onspd.main (Some [file_a; file_b]) empty_db = Onspd.main (Some [file_a]) empty_db
  /\ exists t' : gmap string (Geo.t Q),
       postcode_geo (committed (Onspd.main (Some [file_a; file_b]) empty_db)) = Some t'
       /\ t' !! "AA11AA"
          = Some {| Geo.lat := Some (261 # 5)%Q; Geo.lon := Some (- 223 # 100)%Q;
                    Geo.ladcd := Some "E07000237"; Geo.ladnm := Some "Worcester" |}.
Proof.
  pose proof (loads_chosen_file_only [file_a; file_b] file_a empty_db eq_refl)
    as (_ & Hsame & Hlast).
  split; [reflexivity |]. split; [exact Hsame |].
  destruct (finished_inv (Onspd.main (Some [file_a; file_b]) empty_db)) as [rep Hrun];
    [vm_compute; reflexivity |].
  destruct (Hlast rep _ Hrun) as (t' & Ht & Hk).
  exists t'. split; [exact Ht |]. rewrite Hk. vm_compute. reflexivity.
Defined.



Definition spaces_file : Onspd.csv_file :=
  {| Onspd.name := "x.csv"; Onspd.rows := [row_aa; row_spaces] |}.

Lemma spaces_postcode_upserted_witness :
  Onspd.pc_raw row_spaces <> EmptyString
  /\ only_spaces (Onspd.pc_raw row_spaces) = true
  /\ Onspd.parse_row row_spaces <> Onspd.Skip
  /\ is_Some (committed (Onspd.ingest_csv (∅ : gmap string (Geo.t Q)) spaces_file)
               !! EmptyString).
Proof.
  assert (Hne : Onspd.pc_raw row_spaces <> EmptyString) by (vm_compute; discriminate).
  pose proof (spaces_postcode_upserted row_spaces Hne eq_refl) as (_ & Hns & _ & Htable).
  split; [exact Hne |]. split; [reflexivity |]. split; [exact Hns |].
  destruct (finished_inv (Onspd.ingest_csv (∅ : gmap string (Geo.t Q)) spaces_file))
    as [rep Hrun]; [vm_compute; reflexivity |].
  apply (Htable ∅ _ spaces_file rep); [|exact Hrun].
  apply elem_of_cons. right. apply elem_of_cons. left. reflexivity.
Defined.

Example spaces_row_in_table :
  committed (Onspd.ingest_csv ∅ {| Onspd.name := "x.csv"; Onspd.rows := [row_spaces] |})
    !! EmptyString
  = Some {| Geo.lat := Some (103 # 2)%Q; Geo.lon := Some (- 1 # 10)%Q;
            Geo.ladcd := None; Geo.ladnm := None |}.
Proof. vm_compute. reflexivity. Qed.

(** ** The joined tables (C7) *)

Section JoinedTables.
Context {float : Type} `{!PyFloat float}.

(** The join is the set of pairs of a sale and a reference row with the same
    postcode and with both coordinates. *)
Lemma join_elem (r : Joined.t float) (sales : list (string * Sale.t))
    (refs : list (string * Geo.t float)) :
  r ∈ Join.join sales refs
  <-> exists (p : string * Sale.t) (g : string * Geo.t float),
        p ∈ sales /\ g ∈ refs /\ Sale.postcode p.2 = g.1
        /\ is_Some (Geo.lat g.2) /\ is_Some (Geo.lon g.2)
        /\ r = Join.joined_row p g.
Proof.
  unfold Join.join. rewrite list_elem_of_In, in_flat_map. split.
  - intros (p & Hp & Hr). apply in_map_iff in Hr as (g & <- & Hg).
    apply filter_In in Hg as [Hg Hm]. unfold Join.matches in Hm.
    apply andb_true_iff in Hm as [[H1 H2]%andb_true_iff H3].
    exists p, g. rewrite !list_elem_of_In.
    apply bool_decide_eq_true in H1, H2, H3. done.
  - intros (p & g & Hp & Hg & H1 & H2 & H3 & ->).
    exists p. rewrite <- list_elem_of_In. split; [done |].
    apply in_map, filter_In. rewrite <- list_elem_of_In. split; [done |].
    unfold Join.matches. by rewrite !bool_decide_eq_true_2.
Qed.

(** What [build_joined_tables] leaves when its source tables are there. *)
Lemma build_joined_tables_result (d : db float) (sales : gmap string Sale.t)
    (geo : gmap string (Geo.t float)) :
  ppd_sales d = Some sales -> postcode_geo d = Some geo ->
  exec (Join.build_joined_tables d) d
  = Finished tt
      (let uk := Join.set_joined_uk d
                   (Some (Join.join (map_to_list sales) (map_to_list geo))) in
       match postcode_geo_region d with
       | Some rows =>
           Join.set_joined_region uk (Some (Join.join (map_to_list sales) rows))
       | None => uk
       end).
Proof.
  intros Hs Hg. unfold exec, Join.build_joined_tables.
  destruct (postcode_geo_region d) as [rows|] eqn:Hr; simpl;
    unfold Join.create_joined_uk; simpl; rewrite Hs, Hg; simpl;
    [unfold Join.create_joined_region; simpl; rewrite Hs, Hr |]; done.
Qed.

(** The rows of the region subset are rows of the reference table: what
    [build_region] establishes at the end of every run of the reference
    loader. *)
Definition region_of_reference (d : db float) : Prop :=
  forall (rows : list (string * Geo.t float)) (geo : gmap string (Geo.t float)),
    postcode_geo_region d = Some rows -> postcode_geo d = Some geo ->
    forall kv : string * Geo.t float, kv ∈ rows -> geo !! kv.1 = Some kv.2.


(** A run of the reference loader that completes establishes
    [region_of_reference]. *)
Lemma main_region_of_reference (found : option (list Onspd.csv_file)) (d d' : db float)
    (rep : Onspd.report) :
  Onspd.main found d = Finished rep d' -> region_of_reference d'.
Proof.
  unfold Onspd.main. destruct found as [csvs|]; [|done].
  destruct (Onspd.chosen csvs) as [p|]; [|done].
  destruct (Onspd.ingest_csv _ p) as [rep1 t1|t1]; [|done].
  intros [= <- <-] rows geo. simpl. intros [= <-] [= <-] [k v] Hkv.
  apply list_elem_of_filter in Hkv as [_ Hkv]. by apply elem_of_map_to_list.
Qed.

End JoinedTables.

(** *** A store built by the pipeline *)

Definition row_cc_no_coordinates : gmap string string :=
  list_to_map [("pcds", "CC1 1CC"); ("lat", ""); ("long", "");
               ("ladcd", "E07000237"); ("ladnm", "Worcester")].

Definition reference_file : Onspd.csv_file :=
  {| Onspd.name := "ONSPD_NOV_2025_UK.csv";
     Onspd.rows := [row_aa; row_bb; row_cc_no_coordinates] |}.

Definition sale_row (txid price pc : string) : list string :=
  [txid; price; "2025-01-01"; pc; "D"; "N"; "F"].

Definition sales_file : list (list string) :=
  [ sale_row "{TX-1}" "100000" "AA1 1AA"; sale_row "{TX-2}" "200000" "aa1 1aa";
    sale_row "{TX-3}" "300000" "AA11AA"; sale_row "{TX-4}" "400000" "AA1 1AA";
    sale_row "{TX-5}" "500000" "AA1 1AA"; sale_row "{TX-6}" "250000" "BB1 1BB";
    sale_row "{TX-7}" "180000" "CC1 1CC" ].

(** After the reference loader and the load of the transactions. *)
Definition loaded_db : db Q :=
  let d := committed (Onspd.main (Some [reference_file]) empty_db) in
  let d1 := Join.ensure_schema d in
  Join.set_sales d1 (committed (Ppd.ingest_ppd (Some sales_file) None ∅)).

(** After the spatial join and after the aggregation. *)
Definition joined_db : db Q :=
  committed (exec (Join.build_joined_tables loaded_db) loaded_db).

Definition tiled_db : db Q := committed (exec (Tiles.main joined_db) joined_db).

Example joined_db_counts :
  length <$> ppd_sales_geo joined_db = Some 6%nat
  /\ length <$> ppd_sales_geo_region joined_db = Some 5%nat.
Proof. split; vm_compute; reflexivity. Qed.

Definition region_source : list (Joined.t Q) :=
  default [] (ppd_sales_geo_region joined_db).

Example tiled_db_tiles :
  heatmap_tiles tiled_db
  = Some [ {| Tile.lat_bin := (5219 # 100)%Q; Tile.lon_bin := (- 111 # 50)%Q;
              Tile.sales_count := 5;
              Tile.avg_price := Some (1500000 # 5)%Q;
              Tile.median_price := Some (300000 # 1)%Q |} ].
Proof. vm_compute. reflexivity. Qed.

Lemma loaded_db_region_of_reference : region_of_reference loaded_db.
Proof.
  assert (Hrun : exists rep d, Onspd.main (Some [reference_file]) empty_db = Finished rep d
                               /\ postcode_geo d = postcode_geo loaded_db
                               /\ postcode_geo_region d = postcode_geo_region loaded_db).
  { eexists _, _. split; [vm_compute; reflexivity |]. split; vm_compute; reflexivity. }
  destruct Hrun as (rep & d & Hrun & Hg & Hr).
  intros rows geo Hrows Hgeo. rewrite <- Hr in Hrows. rewrite <- Hg in Hgeo.
  exact (main_region_of_reference _ _ _ _ Hrun rows geo Hrows Hgeo).
Qed.


(** ** Rebuilding the derived tables (C2) *)

Section Rebuilds.
Context {float : Type} `{!PyFloat float}.

(** The claim C2 as the specification words it: during a rebuild a reader
    that could see a derived table before can see it at every point. *)
Definition rebuilt_by_swap : Prop :=
  forall d d' : db float,
    (is_Some (ppd_sales_geo d) -> d' ∈ trace (Join.build_joined_tables d) d ->
     is_Some (ppd_sales_geo d'))
    /\ (is_Some (ppd_sales_geo_region d) -> d' ∈ trace (Join.build_joined_tables d) d ->
        is_Some (ppd_sales_geo_region d'))
    /\ (is_Some (heatmap_tiles d) -> d' ∈ trace (Tiles.main d) d ->
        is_Some (heatmap_tiles d')).

(** C2, as the code has it. Each derived table is rebuilt in place, by a DROP
    that is committed on its own and a CREATE TABLE ... AS SELECT after it: the
    first state a reader can see has the table missing, the next has the
    recomputed rows. *)
Theorem rebuild_drops_then_creates (d : db float) :
  (forall (sales : gmap string Sale.t) (geo : gmap string (Geo.t float)),
     ppd_sales d = Some sales -> postcode_geo d = Some geo ->
     let uk := Join.set_joined_uk d
                 (Some (Join.join (map_to_list sales) (map_to_list geo))) in
     trace (Join.build_joined_tables d) d
     = [Join.set_joined_uk d None; uk]
       ++ match postcode_geo_region d with
          | Some rows =>
              [Join.set_joined_region uk None;
               Join.set_joined_region uk (Some (Join.join (map_to_list sales) rows))]
          | None => []
          end)
  /\ (forall rows : list (Joined.t float),
        Tiles.read_source (Tiles.choose_source d) d = Some rows ->
        trace (Tiles.main d) d
        = [Tiles.set_tiles d None; Tiles.set_tiles d (Some (Tiles.build_tiles rows))]).
Proof.
  split.
  - intros sales geo Hs Hg. unfold Join.build_joined_tables.
    destruct (postcode_geo_region d) as [rows|] eqn:Hr; simpl;
      unfold Join.create_joined_uk; simpl; rewrite Hs, Hg; simpl;
      [unfold Join.create_joined_region; simpl; rewrite Hs, Hr |]; done.
  - intros rows Hrows. unfold Tiles.main. simpl. unfold Tiles.create_tiles. simpl.
    replace (Tiles.read_source (Tiles.choose_source d) (Tiles.set_tiles d None))
      with (Tiles.read_source (Tiles.choose_source d) d)
      by (by destruct (Tiles.choose_source d)).
    by rewrite Hrows.
Qed.

(** The first state of the rebuild of the tiles is the store without the
    tile table. *)
Lemma tiles_dropped_first (d : db float) :
  exists rest : list (db float),
    trace (Tiles.main d) d = Tiles.set_tiles d None :: rest.
Proof. by eexists. Qed.

End Rebuilds.

Lemma rebuild_drops_then_creates_witness :
  Tiles.read_source (Tiles.choose_source joined_db) joined_db = Some region_source
  /\ trace (Tiles.main joined_db) joined_db
     = [Tiles.set_tiles joined_db None;
        Tiles.set_tiles joined_db (Some (Tiles.build_tiles region_source))]
  /\ (ppd_sales_geo <$> trace (Join.build_joined_tables loaded_db) loaded_db) !! 0%nat
     = Some None.
Proof.
  assert (Hsrc : Tiles.read_source (Tiles.choose_source joined_db) joined_db
                 = Some region_source)
    by (vm_compute; reflexivity).
  assert (Hs : ppd_sales loaded_db = Some (default ∅ (ppd_sales loaded_db)))
    by (vm_compute; reflexivity).
  assert (Hg : postcode_geo loaded_db = Some (default ∅ (postcode_geo loaded_db)))
    by (vm_compute; reflexivity).
  pose proof (rebuild_drops_then_creates joined_db) as [_ Htiles].
  pose proof (rebuild_drops_then_creates loaded_db) as [Hjoin _].
  split; [exact Hsrc |]. split; [exact (Htiles region_source Hsrc) |].
  rewrite (Hjoin _ _ Hs Hg). reflexivity.
Defined.

(** C2, as the specification words it, fails: when the tiles of [tiled_db]
    are rebuilt, the state after the DROP has no tile table. *)
Lemma tile_table_missing_during_rebuild : ~ @rebuilt_by_swap Q ExactFloat.exact.
Proof.
  intros Hclaim.
  destruct (Hclaim tiled_db (Tiles.set_tiles tiled_db None)) as (_ & _ & Htiles).
  assert (Hbefore : is_Some (heatmap_tiles tiled_db)).
  { assert (Hb : bool_decide (is_Some (heatmap_tiles tiled_db)) = true)
      by (vm_compute; reflexivity).
    by apply bool_decide_eq_true in Hb. }
  assert (Hin : Tiles.set_tiles tiled_db None ∈ trace (Tiles.main tiled_db) tiled_db).
  { destruct (tiles_dropped_first tiled_db) as [rest ->]. apply elem_of_cons. by left. }
  destruct (Htiles Hbefore Hin) as [x Hx]. discriminate.
Qed.

(** ** The aggregate query *)

Section TileQuery.
Context {K : Type} `{EqDecision K}.
Implicit Types (k : K) (s : list Z).


(** The rows whose number lies between [lo] and [hi]. *)
Lemma window_row_numbers k (n lo hi a : Z) s :
  omap (fun r : Tiles.ranked_row K =>
          if (lo <=? Tiles.rn r) && (Tiles.rn r <=? hi) then Some (Tiles.r_price r) else None)
       (Tiles.row_numbers k n a s)
  = take (Z.to_nat (hi - Z.max lo a + 1)) (drop (Z.to_nat (lo - a)) s).
Proof.
  revert a. induction s as [|p s IH]; intros a.
  - by rewrite drop_nil, take_nil.
  - cbn [Tiles.row_numbers omap list_omap Tiles.rn Tiles.r_price]. rewrite IH.
    destruct (Z.leb_spec lo a) as [Hlo|Hlo]; simpl.
    + replace (Z.to_nat (lo - a)) with 0%nat by lia.
      replace (Z.to_nat (lo - (a + 1))) with 0%nat by lia. rewrite !drop_0.
      destruct (Z.leb_spec a hi) as [Hhi|Hhi].
      * replace (Z.to_nat (hi - Z.max lo a + 1)) with (S (Z.to_nat (hi - a))) by lia.
        simpl. do 2 f_equal. lia.
      * replace (Z.to_nat (hi - Z.max lo a + 1)) with 0%nat by lia.
        replace (Z.to_nat (hi - Z.max lo (a + 1) + 1)) with 0%nat by lia. done.
    + replace (Z.to_nat (lo - a)) with (S (Z.to_nat (lo - (a + 1)))) by lia.
      simpl. do 2 f_equal. lia.
Qed.

(** The CASE of the median keeps the rows numbered from [(cnt + 1) / 2] to
    [(cnt + 2) / 2]. *)
Lemma median_case_window (r : Tiles.ranked_row K) :
  0 <= Tiles.cnt r ->
  Tiles.median_case r
  = if (Z.quot (Tiles.cnt r + 1) 2 <=? Tiles.rn r)
       && (Tiles.rn r <=? Z.quot (Tiles.cnt r + 2) 2)
    then Some (Tiles.r_price r) else None.
Proof.
  intros Hn. unfold Tiles.median_case.
  rewrite !Z.quot_div_nonneg by lia.
  assert (Hm : (Tiles.cnt r + 2) / 2 = (Tiles.cnt r + 1) / 2
               \/ (Tiles.cnt r + 2) / 2 = (Tiles.cnt r + 1) / 2 + 1)
    by (Z.to_euclidean_division_equations; lia).
  destruct (Z.eqb_spec (Tiles.rn r) ((Tiles.cnt r + 1) / 2)),
           (Z.eqb_spec (Tiles.rn r) ((Tiles.cnt r + 2) / 2)),
           (Z.leb_spec ((Tiles.cnt r + 1) / 2) (Tiles.rn r)),
           (Z.leb_spec (Tiles.rn r) ((Tiles.cnt r + 2) / 2)); simpl; try done; lia.
Qed.

Lemma row_numbers_cell k (n a : Z) s (r : Tiles.ranked_row K) :
  r ∈ Tiles.row_numbers k n a s -> Tiles.cell r = k /\ Tiles.cnt r = n.
Proof.
  revert a. induction s as [|p s IH]; intros a; simpl.
  - by intros ?%elem_of_nil.
  - intros [->|Hin]%elem_of_cons; [done | by eapply IH].
Qed.

Lemma row_numbers_prices k (n a : Z) s :
  map Tiles.r_price (Tiles.row_numbers k n a s) = s.
Proof. revert a. induction s as [|p s IH]; intros a; simpl; [done | by rewrite IH]. Qed.

Lemma row_numbers_median k (n a : Z) s :
  0 <= n ->
  omap Tiles.median_case (Tiles.row_numbers k n a s)
  = take (Z.to_nat (Z.quot (n + 2) 2 - Z.max (Z.quot (n + 1) 2) a + 1))
         (drop (Z.to_nat (Z.quot (n + 1) 2 - a)) s).
Proof.
  intros Hn. rewrite <- (window_row_numbers k n).
  apply list_omap_ext, Forall_Forall2_diag, Forall_forall.
  intros r [_ Hr]%row_numbers_cell. rewrite median_case_window by lia.
  by rewrite Hr.
Qed.

Lemma drop_take_one s (i : nat) (x : Z) :
  s !! i = Some x -> take 1 (drop i s) = [x].
Proof. intros Hx. by rewrite (drop_S _ _ _ Hx). Qed.

Lemma drop_take_two s (i : nat) (x y : Z) :
  s !! i = Some x -> s !! S i = Some y -> take 2 (drop i s) = [x; y].
Proof. intros Hx Hy. by rewrite (drop_S _ _ _ Hx), (drop_S _ _ _ Hy). Qed.

Lemma at_rank_lookup s (i : nat) (x : Z) :
  s !! i = Some x -> Tiles.at_rank s (S i) = x.
Proof.
  intros Hx. unfold Tiles.at_rank. replace (S i - 1)%nat with i by lia.
  by apply nth_lookup_Some.
Qed.

(** The median aggregate over the numbered rows of a sorted list is the
    median of the rank rule. *)
Lemma median_of_sorted k s :
  s <> [] ->
  exists m : Q,
    Tiles.AVG (omap Tiles.median_case (Tiles.row_numbers k (Z.of_nat (length s)) 1 s))
    = Some m
    /\ (m == Tiles.rank_median s)%Q.
Proof.
  intros Hne. rewrite row_numbers_median by lia. unfold Tiles.rank_median.
  assert (Hlen : (0 < length s)%nat) by (destruct s; [done | simpl; lia]).
  destruct (Nat.odd (length s)) eqn:Hodd.
  - apply Nat.odd_spec in Hodd as [m Hm].
    assert (Hq1 : Z.quot (Z.of_nat (length s) + 1) 2 = Z.of_nat m + 1)
      by (rewrite Z.quot_div_nonneg by lia; Z.to_euclidean_division_equations; lia).
    assert (Hq2 : Z.quot (Z.of_nat (length s) + 2) 2 = Z.of_nat m + 1)
      by (rewrite Z.quot_div_nonneg by lia; Z.to_euclidean_division_equations; lia).
    rewrite Hq1, Hq2.
    replace (Z.to_nat (Z.of_nat m + 1 - Z.max (Z.of_nat m + 1) 1 + 1)) with 1%nat by lia.
    replace (Z.to_nat (Z.of_nat m + 1 - 1)) with m by lia.
    destruct (lookup_lt_is_Some_2 s m ltac:(lia)) as [x Hx].
    rewrite (drop_take_one s m x Hx).
    replace ((length s + 1) / 2)%nat with (S m)
      by (rewrite Hm; replace (2 * m + 1 + 1)%nat with ((m + 1) * 2)%nat by lia;
          rewrite Nat.div_mul by lia; lia).
    rewrite (at_rank_lookup s m x Hx).
    eexists. split; [reflexivity |]. unfold Qeq. simpl. lia.
  - assert (Heven : Nat.even (length s) = true)
      by (rewrite <- Nat.negb_odd; by rewrite Hodd).
    apply Nat.even_spec in Heven as [m Hm].
    destruct m as [|m]; [lia |].
    assert (Hq1 : Z.quot (Z.of_nat (length s) + 1) 2 = Z.of_nat m + 1)
      by (rewrite Z.quot_div_nonneg by lia; Z.to_euclidean_division_equations; lia).
    assert (Hq2 : Z.quot (Z.of_nat (length s) + 2) 2 = Z.of_nat m + 2)
      by (rewrite Z.quot_div_nonneg by lia; Z.to_euclidean_division_equations; lia).
    rewrite Hq1, Hq2.
    replace (Z.to_nat (Z.of_nat m + 2 - Z.max (Z.of_nat m + 1) 1 + 1)) with 2%nat by lia.
    replace (Z.to_nat (Z.of_nat m + 1 - 1)) with m by lia.
    destruct (lookup_lt_is_Some_2 s m ltac:(lia)) as [x Hx].
    destruct (lookup_lt_is_Some_2 s (S m) ltac:(lia)) as [y Hy].
    rewrite (drop_take_two s m x y Hx Hy).
    replace (length s / 2)%nat with (S m)
      by (rewrite Hm; replace (2 * S m)%nat with (S m * 2)%nat by lia;
          by rewrite Nat.div_mul by lia).
    replace (S m + 1)%nat with (S (S m)) by lia.
    rewrite (at_rank_lookup s m x Hx), (at_rank_lookup s (S m) y Hy).
    eexists. split; [reflexivity |]. unfold Qeq. simpl. lia.
Qed.

Lemma filter_all {A} (P : A -> Prop) `{forall x, Decision (P x)} (l : list A) :
  (forall x, x ∈ l -> P x) -> filter P l = l.
Proof.
  induction l as [|x l IH]; intros Hall; [done |].
  rewrite filter_cons_True by (apply Hall, elem_of_cons; by left).
  f_equal. apply IH. intros y Hy. apply Hall, elem_of_cons. by right.
Qed.

Lemma filter_none {A} (P : A -> Prop) `{forall x, Decision (P x)} (l : list A) :
  (forall x, x ∈ l -> ~ P x) -> filter P l = [].
Proof.
  induction l as [|x l IH]; intros Hall; [done |].
  rewrite filter_cons_False by (apply Hall, elem_of_cons; by left).
  apply IH. intros y Hy. apply Hall, elem_of_cons. by right.
Qed.

(** Filtering a concatenation of blocks by a property that holds on one
    block and on no other gives that block. *)
Lemma filter_flat_map_block {A B} (P : B -> Prop) `{forall x, Decision (P x)}
    (f : A -> list B) (l : list A) (a : A) :
  NoDup l -> a ∈ l ->
  (forall b, b ∈ f a -> P b) ->
  (forall a' b, a' <> a -> b ∈ f a' -> ~ P b) ->
  filter P (flat_map f l) = f a.
Proof.
  intros Hnd Hin Hyes Hno. induction l as [|x l IH]; [by apply elem_of_nil in Hin |].
  apply NoDup_cons in Hnd as [Hx Hnd]. simpl. rewrite filter_app.
  apply elem_of_cons in Hin as [->|Hal].
  - rewrite filter_all by done. rewrite filter_none; [by rewrite app_nil_r |].
    intros b (a' & Ha' & Hb)%list_elem_of_In%in_flat_map.
    apply list_elem_of_In in Ha', Hb. apply (Hno a' b); [|done]. by intros ->.
  - rewrite (IH Hnd Hal), filter_none; [done |].
    intros b Hb. apply (Hno x b); [|done]. by intros ->.
Qed.

Lemma ranked_elem (binned : list (K * Z)) (r : Tiles.ranked_row K) :
  r ∈ Tiles.ranked binned
  <-> exists k, k ∈ map fst binned
                /\ r ∈ Tiles.rank_partition k (Tiles.cell_prices binned k).
Proof.
  unfold Tiles.ranked. rewrite list_elem_of_In, in_flat_map.
  split; intros (k & Hk & Hr); exists k.
  - by rewrite <- !list_elem_of_In, elem_of_remove_dups in *.
  - by rewrite <- !list_elem_of_In, elem_of_remove_dups.
Qed.

(** The number of rows of [binned] in cell [k]. *)
Definition cell_count (binned : list (K * Z)) (k : K) : Z :=
  Z.of_nat (length (Tiles.cell_prices binned k)).

Lemma rank_partition_cell k (prices : list Z) (r : Tiles.ranked_row K) :
  r ∈ Tiles.rank_partition k prices ->
  Tiles.cell r = k /\ Tiles.cnt r = Z.of_nat (length prices).
Proof.
  unfold Tiles.rank_partition. intros [-> ->]%row_numbers_cell.
  by rewrite (Permutation_length (merge_sort_Permutation Z.le prices)).
Qed.

Lemma cell_prices_elem (binned : list (K * Z)) k :
  k ∈ map fst binned <-> Tiles.cell_prices binned k <> [].
Proof.
  unfold Tiles.cell_prices. induction binned as [|[k' p] binned IH]; simpl.
  - split; [by intros ?%elem_of_nil | done].
  - rewrite elem_of_cons. destruct (decide (k' = k)) as [->|Hne].
    + rewrite filter_cons_True by done. simpl. split; [done | by left].
    + rewrite filter_cons_False by done. rewrite <- IH. split; [|by right].
      by intros [?|?].
Qed.

(** The rows of [ranked] that fall in the group of a cell are the numbered
    rows of its partition. *)
Lemma group_members (binned : list (K * Z)) k :
  k ∈ map fst binned ->
  filter (fun r => (Tiles.cell r, Tiles.cnt r) = (k, cell_count binned k))
         (Tiles.ranked binned)
  = Tiles.rank_partition k (Tiles.cell_prices binned k).
Proof.
  intros Hk. unfold Tiles.ranked.
  apply (filter_flat_map_block _ (fun k => Tiles.rank_partition k (Tiles.cell_prices binned k))).
  - apply NoDup_remove_dups.
  - by apply elem_of_remove_dups.
  - intros r [-> ->]%rank_partition_cell. done.
  - intros k' r Hne [Hc _]%rank_partition_cell [= Hk'] . congruence.
Qed.

(** The row of the final SELECT for cell [k]. *)
Definition group_of (binned : list (K * Z)) (k : K) : Tiles.group_row K :=
  let rows := Tiles.rank_partition k (Tiles.cell_prices binned k) in
  {| Tiles.g_cell := k;
     Tiles.g_sales_count := cell_count binned k;
     Tiles.g_avg_price := Tiles.AVG (map Tiles.r_price rows);
     Tiles.g_median_price := Tiles.AVG (omap Tiles.median_case rows) |}.

(** GROUP BY cell, cnt gives one row per cell that has rows. *)
Lemma grouped_elem (binned : list (K * Z)) (g : Tiles.group_row K) :
  g ∈ Tiles.grouped binned
  <-> exists k, k ∈ map fst binned /\ g = group_of binned k.
Proof.
  unfold Tiles.grouped. rewrite list_elem_of_In, in_map_iff. split.
  - intros ([k n] & <- & Hgk).
    rewrite <- list_elem_of_In, elem_of_remove_dups, list_elem_of_In, in_map_iff in Hgk.
    destruct Hgk as (r & [= <- <-] & Hr).
    rewrite <- list_elem_of_In, ranked_elem in Hr. destruct Hr as (k & Hk & Hr).
    destruct (rank_partition_cell _ _ _ Hr) as [Hc Hn].
    exists k. split; [done |]. unfold group_of. simpl. rewrite Hc, Hn.
    fold (cell_count binned k). by rewrite (group_members binned k Hk).
  - intros (k & Hk & ->). exists (k, cell_count binned k). split.
    + unfold group_of. simpl. by rewrite (group_members binned k Hk).
    + rewrite <- list_elem_of_In, elem_of_remove_dups, list_elem_of_In, in_map_iff.
      pose proof (proj1 (cell_prices_elem binned k) Hk) as Hne.
      destruct (Tiles.rank_partition k (Tiles.cell_prices binned k)) as [|r rows] eqn:E.
      { apply (f_equal (map Tiles.r_price)) in E. unfold Tiles.rank_partition in E.
        rewrite row_numbers_prices in E. simpl in E.
        pose proof (merge_sort_Permutation Z.le (Tiles.cell_prices binned k)) as Hp.
        rewrite E in Hp. by apply Permutation_nil_l in Hp. }
      assert (Hr : r ∈ Tiles.rank_partition k (Tiles.cell_prices binned k))
        by (rewrite E; apply elem_of_cons; by left).
      exists r. destruct (rank_partition_cell _ _ _ Hr) as [Hc Hn].
      split; [unfold cell_count; by rewrite Hc, Hn |].
      rewrite <- list_elem_of_In, ranked_elem. by exists k.
Qed.

Lemma group_of_median (binned : list (K * Z)) k (s : list Z) :
  k ∈ map fst binned ->
  Sorted Z.le s -> s ≡ₚ Tiles.cell_prices binned k ->
  s <> [] /\ exists m : Q,
    Tiles.g_median_price (group_of binned k) = Some m /\ (m == Tiles.rank_median s)%Q.
Proof.
  intros Hk Hsorted Hperm.
  assert (Hs : merge_sort Z.le (Tiles.cell_prices binned k) = s).
  { apply (Sorted_unique Z.le); [apply Sorted_merge_sort; apply _ | done |].
    by rewrite merge_sort_Permutation. }
  assert (Hne : s <> []).
  { intros ->. apply Permutation_nil_l in Hperm. by apply cell_prices_elem in Hk. }
  split; [done |]. unfold group_of, Tiles.rank_partition. simpl. rewrite Hs.
  by apply median_of_sorted.
Qed.

Lemma group_of_avg (binned : list (K * Z)) k :
  k ∈ map fst binned -> is_Some (Tiles.g_avg_price (group_of binned k)).
Proof.
  intros Hk%cell_prices_elem. unfold group_of, Tiles.rank_partition. simpl.
  rewrite row_numbers_prices.
  destruct (merge_sort Z.le (Tiles.cell_prices binned k)) as [|x l] eqn:E; [|by eexists].
  pose proof (merge_sort_Permutation Z.le (Tiles.cell_prices binned k)) as Hp.
  rewrite E in Hp. by apply Permutation_nil_l in Hp.
Qed.

(** HAVING keeps the cells with five rows or more. *)
Lemma select_tiles_elem (binned : list (K * Z)) (g : Tiles.group_row K) :
  g ∈ Tiles.select_tiles binned
  <-> exists k, g = group_of binned k /\ 5 <= cell_count binned k.
Proof.
  unfold Tiles.select_tiles. rewrite list_elem_of_In, filter_In, <- list_elem_of_In.
  rewrite grouped_elem. unfold Tiles.having. split.
  - intros [(k & Hk & ->) Hh]. exists k. split; [done |]. simpl in Hh. lia.
  - intros (k & -> & Hn). split; [|simpl; lia]. exists k. split; [|done].
    apply cell_prices_elem. unfold cell_count in Hn.
    destruct (Tiles.cell_prices binned k); [simpl in Hn; lia | done].
Qed.

End TileQuery.

(** ** The tile table (C1, C8) *)

Section TileTable.
Context {float : Type} `{!PyFloat float}.

Lemma build_tiles_elem (source : list (Joined.t float)) (t : Tile.t float) :
  t ∈ Tiles.build_tiles source
  <-> exists k : float * float,
        t = Tiles.tile_of (group_of (Tiles.binned source) k)
        /\ 5 <= cell_count (Tiles.binned source) k.
Proof.
  unfold Tiles.build_tiles. rewrite list_elem_of_In, in_map_iff. split.
  - intros (g & <- & Hg). rewrite <- list_elem_of_In, select_tiles_elem in Hg.
    destruct Hg as (k & -> & Hn). by exists k.
  - intros (k & -> & Hn). exists (group_of (Tiles.binned source) k). split; [done |].
    rewrite <- list_elem_of_In, select_tiles_elem. by exists k.
Qed.

(** A tile for the cell with lower bounds [la] and [lo]. *)
Definition has_tile (source : list (Joined.t float)) (la lo : float) : Prop :=
  exists t : Tile.t float,
    t ∈ Tiles.build_tiles source /\ Tile.lat_bin t = la /\ Tile.lon_bin t = lo.

Lemma has_tile_iff (source : list (Joined.t float)) (la lo : float) :
  has_tile source la lo <-> 5 <= cell_count (Tiles.binned source) (la, lo).
Proof.
  split.
  - intros (t & ([a b] & -> & Hn)%build_tiles_elem & Hla & Hlo).
    simpl in Hla, Hlo. by subst.
  - intros Hn. exists (Tiles.tile_of (group_of (Tiles.binned source) (la, lo))).
    split; [|done]. apply build_tiles_elem. by exists (la, lo).
Qed.

(** C8. With the threshold of 5 of the query, a cell has a tile exactly when
    at least five rows are binned into it: none with four rows, one with
    five. A tile that is there carries the count of its cell and both
    statistics. *)
Theorem tile_threshold (source : list (Joined.t float)) (la lo : float) :
  (has_tile source la lo <-> 5 <= cell_count (Tiles.binned source) (la, lo))
  /\ (cell_count (Tiles.binned source) (la, lo) = 4 -> ~ has_tile source la lo)
  /\ (cell_count (Tiles.binned source) (la, lo) = 5 -> has_tile source la lo)
  /\ (forall t : Tile.t float,
        t ∈ Tiles.build_tiles source -> Tile.lat_bin t = la -> Tile.lon_bin t = lo ->
        Tile.sales_count t = cell_count (Tiles.binned source) (la, lo)
        /\ is_Some (Tile.avg_price t) /\ is_Some (Tile.median_price t)).
Proof.
  split; [apply has_tile_iff |]. split; [|split].
  - intros Hn Ht%has_tile_iff. lia.
  - intros Hn. apply has_tile_iff. lia.
  - intros t ([a b] & -> & Hn)%build_tiles_elem Hla Hlo. simpl in Hla, Hlo. subst.
    assert (Hk : (la, lo) ∈ map fst (Tiles.binned source)).
    { apply cell_prices_elem. unfold cell_count in Hn.
      destruct (Tiles.cell_prices _ _); [simpl in Hn; lia | done]. }
    split; [done |]. split; [by apply group_of_avg |].
    destruct (group_of_median (Tiles.binned source) (la, lo)
                (merge_sort Z.le (Tiles.cell_prices (Tiles.binned source) (la, lo))) Hk)
      as (_ & m & Hm & _).
    + apply Sorted_merge_sort. apply _.
    + apply merge_sort_Permutation.
    + change (is_Some (Tiles.g_median_price (group_of (Tiles.binned source) (la, lo)))).
      rewrite Hm. by eexists.
Qed.


End TileTable.

Lemma tile_threshold_witness :
  cell_count (Tiles.binned region_source) ((5219 # 100)%Q, (- 111 # 50)%Q) = 5
  /\ has_tile region_source (5219 # 100)%Q (- 111 # 50)%Q.
Proof.
  assert (Hn : cell_count (Tiles.binned region_source) ((5219 # 100)%Q, (- 111 # 50)%Q) = 5)
    by (vm_compute; reflexivity).
  split; [exact Hn |].
  exact (proj1 (proj2 (proj2
           (tile_threshold region_source (5219 # 100)%Q (- 111 # 50)%Q))) Hn).
Defined.




(** * Further properties *)

(** ** Postcode keys *)

Lemma is_space_upper (c : ascii) : Py.is_space (Py.upper_char c) = Py.is_space c.
Proof. destruct c as [[] [] [] [] [] [] [] []]; reflexivity. Qed.

Lemma is_space_lower (c : ascii) : Py.is_space (Py.lower_char c) = Py.is_space c.
Proof. destruct c as [[] [] [] [] [] [] [] []]; reflexivity. Qed.


Lemma upper_upper_char (c : ascii) : Py.upper_char (Py.upper_char c) = Py.upper_char c.
Proof. destruct c as [[] [] [] [] [] [] [] []]; reflexivity. Qed.

Lemma upper_char_space (c : ascii) :
  Ascii.eqb (Py.upper_char c) " "%char = Ascii.eqb c " "%char.
Proof. destruct c as [[] [] [] [] [] [] [] []]; reflexivity. Qed.

Lemma is_empty_map (f : ascii -> ascii) (s : string) :
  Py.is_empty (Py.map_chars f s) = Py.is_empty s.
Proof. by destruct s. Qed.

Lemma lstrip_map (f : ascii -> ascii) (s : string) :
  (forall c, Py.is_space (f c) = Py.is_space c) ->
  Py.lstrip (Py.map_chars f s) = Py.map_chars f (Py.lstrip s).
Proof.
  intros Hf. induction s as [|c s IH]; [done |]. simpl. rewrite Hf.
  by destruct (Py.is_space c).
Qed.

Lemma rstrip_map (f : ascii -> ascii) (s : string) :
  (forall c, Py.is_space (f c) = Py.is_space c) ->
  Py.rstrip (Py.map_chars f s) = Py.map_chars f (Py.rstrip s).
Proof.
  intros Hf. induction s as [|c s IH]; [done |]. simpl.
  rewrite Hf, IH, is_empty_map. by destruct (Py.is_space c && Py.is_empty (Py.rstrip s)).
Qed.

Lemma strip_map (f : ascii -> ascii) (s : string) :
  (forall c, Py.is_space (f c) = Py.is_space c) ->
  Py.strip (Py.map_chars f s) = Py.map_chars f (Py.strip s).
Proof. intros Hf. unfold Py.strip. by rewrite lstrip_map, rstrip_map. Qed.

Lemma map_chars_compose (f g : ascii -> ascii) (s : string) :
  Py.map_chars f (Py.map_chars g s) = Py.map_chars (fun c => f (g c)) s.
Proof. induction s as [|c s IH]; [done |]. simpl. by rewrite IH. Qed.

Lemma map_chars_ext (f g : ascii -> ascii) (s : string) :
  (forall c, f c = g c) -> Py.map_chars f s = Py.map_chars g s.
Proof. intros Hfg. induction s as [|c s IH]; [done |]. simpl. by rewrite Hfg, IH. Qed.

Lemma replace_space_upper (s : string) :
  Py.replace_space (Py.upper s) = Py.upper (Py.replace_space s).
Proof.
  unfold Py.upper. induction s as [|c s IH]; [done |]. simpl.
  rewrite upper_char_space, IH. by destruct (Ascii.eqb c " ").
Qed.

Lemma replace_space_twice (s : string) :
  Py.replace_space (Py.replace_space s) = Py.replace_space s.
Proof.
  induction s as [|c s IH]; [done |]. simpl.
  destruct (Ascii.eqb c " ") eqn:E; [done |]. simpl. by rewrite E, IH.
Qed.

(** A string that does not start with whitespace. *)
Definition head_ok (s : string) : Prop :=
  match s with
  | EmptyString => True
  | String c _ => Py.is_space c = false
  end.

Lemma head_ok_lstrip (s : string) : head_ok (Py.lstrip s).
Proof.
  induction s as [|c s IH]; [done |]. simpl.
  by destruct (Py.is_space c) eqn:E.
Qed.

Lemma lstrip_head_ok (s : string) : head_ok s -> Py.lstrip s = s.
Proof. destruct s as [|c s]; [done |]. simpl. by intros ->. Qed.

Lemma head_ok_rstrip (s : string) : head_ok s -> head_ok (Py.rstrip s).
Proof.
  destruct s as [|c s]; [done |]. simpl. intros Hc. by rewrite Hc.
Qed.

Lemma head_ok_replace_space (s : string) : head_ok s -> head_ok (Py.replace_space s).
Proof.
  destruct s as [|c s]; [done |]. simpl. intros Hc.
  destruct (Ascii.eqb_spec c " ") as [->|Hne]; [done | done].
Qed.

Lemma rstrip_rstrip (s : string) : Py.rstrip (Py.rstrip s) = Py.rstrip s.
Proof.
  induction s as [|c s IH]; [done |]. simpl.
  destruct (Py.is_space c && Py.is_empty (Py.rstrip s)) eqn:E; [done |].
  simpl. by rewrite IH, E.
Qed.

Lemma rstrip_fixed_nonempty (s : string) :
  Py.rstrip s = s -> s <> EmptyString -> Py.replace_space s <> EmptyString.
Proof.
  induction s as [|c s IH]; [done |]. simpl. intros Hr _.
  destruct (Py.is_space c && Py.is_empty (Py.rstrip s)) eqn:E; [done |].
  injection Hr as Hr.
  destruct (Ascii.eqb_spec c " ") as [->|Hne]; [|done].
  apply IH; [done |]. rewrite Hr in E. by destruct s.
Qed.

Lemma rstrip_replace_space (s : string) :
  Py.rstrip s = s -> Py.rstrip (Py.replace_space s) = Py.replace_space s.
Proof.
  induction s as [|c s IH]; [done |]. simpl. intros Hr.
  destruct (Py.is_space c && Py.is_empty (Py.rstrip s)) eqn:E; [done |].
  injection Hr as Hr. specialize (IH Hr).
  destruct (Ascii.eqb_spec c " ") as [->|Hne]; [done |].
  simpl. rewrite IH.
  destruct (Py.is_space c) eqn:Hc; [|done]. simpl in *.
  rewrite Hr in E.
  destruct (Py.replace_space s) eqn:Hrep; [|done].
  exfalso. apply (rstrip_fixed_nonempty s Hr); [by destruct s | done].
Qed.

Lemma strip_replace_space_strip (s : string) :
  Py.strip (Py.replace_space (Py.strip s)) = Py.replace_space (Py.strip s).
Proof.
  assert (Hh : head_ok (Py.strip s)) by apply head_ok_rstrip, head_ok_lstrip.
  assert (Ht : Py.rstrip (Py.strip s) = Py.strip s) by apply rstrip_rstrip.
  unfold Py.strip at 1.
  rewrite (lstrip_head_ok _ (head_ok_replace_space _ Hh)).
  by apply rstrip_replace_space.
Qed.

Lemma normalise_as_strip_upper (s : string) :
  normalise_postcode s = Py.replace_space (Py.strip (Py.upper s)).
Proof.
  unfold normalise_postcode, Py.upper. by rewrite (strip_map _ _ is_space_upper).
Qed.

(** X1. Normalising a postcode key a second time changes nothing. *)
Theorem normalise_postcode_idempotent (pc : string) :
  normalise_postcode (normalise_postcode pc) = normalise_postcode pc.
Proof.
  rewrite (normalise_as_strip_upper pc). unfold normalise_postcode.
  rewrite strip_replace_space_strip, replace_space_upper, replace_space_twice.
  rewrite <- replace_space_upper. f_equal.
  unfold Py.upper. rewrite <- (strip_map _ _ is_space_upper), map_chars_compose.
  f_equal. apply map_chars_ext, upper_upper_char.
Qed.


(** The characters of a string all pass a test. *)
Fixpoint all_chars (P : ascii -> bool) (s : string) : bool :=
  match s with
  | EmptyString => true
  | String c s' => P c && all_chars P s'
  end.

Definition is_lower_letter (c : ascii) : bool :=
  let n := N_of_ascii c in ((97 <=? n) && (n <=? 122))%N.

Lemma upper_char_not_lower (c : ascii) : is_lower_letter (Py.upper_char c) = false.
Proof. destruct c as [[] [] [] [] [] [] [] []]; reflexivity. Qed.

Lemma all_chars_replace_space (P : ascii -> bool) (s : string) :
  all_chars P s = true -> all_chars P (Py.replace_space s) = true.
Proof.
  induction s as [|c s IH]; [done |]. simpl.
  intros [Hc Hs]%andb_true_iff. destruct (Ascii.eqb c " "); [by apply IH |].
  simpl. by rewrite Hc, IH.
Qed.

Lemma all_chars_no_space (s : string) :
  all_chars (fun c => negb (Ascii.eqb c " "%char)) (Py.replace_space s) = true.
Proof.
  induction s as [|c s IH]; [done |]. simpl.
  destruct (Ascii.eqb c " ") eqn:E; [done |]. simpl. by rewrite E, IH.
Qed.

Lemma all_chars_upper (s : string) :
  all_chars (fun c => negb (is_lower_letter c)) (Py.upper s) = true.
Proof.
  unfold Py.upper. induction s as [|c s IH]; [done |]. simpl.
  by rewrite upper_char_not_lower, IH.
Qed.

(** X3. A key holds no SPACE and no lower-case letter, and no whitespace at
    either end. *)
Theorem normalise_postcode_canonical (pc : string) :
  all_chars (fun c => negb (Ascii.eqb c " "%char)) (normalise_postcode pc) = true
  /\ all_chars (fun c => negb (is_lower_letter c)) (normalise_postcode pc) = true
  /\ Py.strip (normalise_postcode pc) = normalise_postcode pc.
Proof.
  split; [apply all_chars_no_space |]. split.
  - unfold normalise_postcode. apply all_chars_replace_space, all_chars_upper.
  - rewrite normalise_as_strip_upper. apply strip_replace_space_strip.
Qed.

(** ** Upserts in general *)

Section Upserts.
Context {V W : Type} (f : V -> W) (ins : gmap string W -> string * V -> gmap string W).
Hypothesis ins_insert : forall t kv, ins t kv = <[kv.1 := f kv.2]> t.

(** The last pair of a list with key [k]. *)
Fixpoint last_with_key (k : string) (l : list (string * V)) : option V :=
  match l with
  | [] => None
  | kv :: rest =>
      match last_with_key k rest with
      | Some v => Some v
      | None => if decide (kv.1 = k) then Some kv.2 else None
      end
  end.

Lemma lookup_foldl_ins (l : list (string * V)) (t : gmap string W) (k : string) :
  foldl ins t l !! k
  = match last_with_key k l with
    | Some v => Some (f v)
    | None => t !! k
    end.
Proof.
  revert t. induction l as [|[k' v] l IH]; intros t; [done |].
  simpl. rewrite IH. destruct (last_with_key k l); [done |].
  rewrite ins_insert. simpl. destruct (decide (k' = k)) as [->|Hne].
  - by rewrite lookup_insert_eq.
  - by rewrite lookup_insert_ne.
Qed.

Lemma foldl_ins_twice (l : list (string * V)) (t : gmap string W) :
  foldl ins (foldl ins t l) l = foldl ins t l.
Proof.
  apply map_eq. intros k. rewrite !lookup_foldl_ins. by destruct (last_with_key k l).
Qed.

Lemma foldl_ins_keeps (l : list (string * V)) (t : gmap string W) (k : string) :
  is_Some (t !! k) -> is_Some (foldl ins t l !! k).
Proof. intros Hk. rewrite lookup_foldl_ins. by destruct (last_with_key k l). Qed.

Lemma last_with_key_elem (k : string) (l : list (string * V)) :
  is_Some (last_with_key k l) <-> exists v, (k, v) ∈ l.
Proof.
  induction l as [|[k' v'] l IH]; simpl.
  - split; [by intros [? ?] | by intros [? ?%elem_of_nil]].
  - destruct (last_with_key k l) as [v|] eqn:E.
    + split; [|by eauto]. intros _. destruct (proj1 IH) as [w Hw]; [by eauto |].
      exists w. apply elem_of_cons. by right.
    + destruct (decide (k' = k)) as [->|Hne].
      * split; [|by eauto]. intros _. exists v'. apply elem_of_cons. by left.
      * split; [by intros [? ?] |]. intros [w [[=]|Hw]%elem_of_cons]; [done |].
        apply IH. by exists w.
Qed.

End Upserts.

(** ** The transaction loader *)

(** The tuples of the rows that pass the checks of the loop. *)
Definition accepted (rows : list (list string)) : list (string * Sale.t) :=
  omap Ppd.parse_row rows.

Lemma ppd_upsert_insert (t : gmap string Sale.t) (kv : string * Sale.t) :
  Ppd.upsert t kv = <[kv.1 := id kv.2]> t.
Proof. done. Qed.

(** The tuples that a run of the loop commits: whole batches up to a batch
    with a price that does not fit, and the last partial batch. It depends on
    the rows and the pending batch only. *)
Fixpoint ppd_flushed (rows : list (list string)) (pending : list (string * Sale.t))
  : list (string * Sale.t) :=
  match rows with
  | [] => if forallb (fun kv => Ppd.fits_int64 (Sale.price kv.2)) pending then pending else []
  | row :: rest =>
      match Ppd.parse_row row with
      | None => ppd_flushed rest pending
      | Some e =>
          let b := pending ++ [e] in
          if Z.of_nat (length b) >=? BATCH_SIZE then
            if forallb (fun kv => Ppd.fits_int64 (Sale.price kv.2)) b
            then b ++ ppd_flushed rest [] else []
          else ppd_flushed rest b
      end
  end.

Lemma committed_ingest_rows (rows : list (list string)) (st : Ppd.loop_state) :
  committed (Ppd.ingest_rows rows st)
  = foldl Ppd.upsert (Ppd.stored st) (ppd_flushed rows (Ppd.batch st)).
Proof.
  revert st. induction rows as [|row rows IH]; intros st.
  - simpl. destruct (Ppd.batch st) as [|e b] eqn:Hb; [done |].
    unfold Ppd.executemany. by destruct (forallb _ (e :: b)).
  - simpl. unfold Ppd.step. destruct (Ppd.parse_row row) as [e|]; [|by rewrite IH].
    destruct (Z.of_nat _ >=? BATCH_SIZE); [|by rewrite IH].
    unfold Ppd.executemany. destruct (forallb _ _); [|done].
    rewrite IH. simpl. symmetry. apply foldl_app.
Qed.

(** The loop, seen from the outside: what is committed is a prefix of the
    accepted tuples; all of them when the run completes, a whole number of
    batches when it does not. *)
Lemma ingest_rows_prefix (rows : list (list string)) (st : Ppd.loop_state) :
  Z.of_nat (length (Ppd.batch st)) < BATCH_SIZE ->
  exists k : nat,
    committed (Ppd.ingest_rows rows st)
    = foldl Ppd.upsert (Ppd.stored st) (take k (Ppd.batch st ++ accepted rows))
    /\ (finished (Ppd.ingest_rows rows st) = true ->
        k = length (Ppd.batch st ++ accepted rows))
    /\ (finished (Ppd.ingest_rows rows st) = false ->
        (Z.of_nat k) mod BATCH_SIZE = 0).
Proof.
  revert st. induction rows as [|row rows IH]; intros st Hlen.
  - simpl. rewrite app_nil_r. destruct (Ppd.batch st) as [|e b] eqn:Hb.
    + exists 0%nat. by repeat split.
    + unfold Ppd.executemany. destruct (forallb _ (e :: b)).
      * exists (length (e :: b)). rewrite firstn_all. by repeat split.
      * exists 0%nat. by repeat split.
  - simpl. unfold Ppd.step, accepted. simpl.
    destruct (Ppd.parse_row row) as [e|]; simpl.
    2: { lazymatch goal with
         | |- context [Ppd.ingest_rows rows ?s] =>
             destruct (IH s Hlen) as (k & Hc & Hfin & Habort)
         end.
         exists k. by repeat split. }
    destruct (Z.geb_spec (Z.of_nat (length (Ppd.batch st ++ [e]))) BATCH_SIZE) as [Hge|Hlt].
    + unfold Ppd.executemany. destruct (forallb _ _); [|exists 0%nat; by repeat split].
      lazymatch goal with
      | |- context [Ppd.ingest_rows rows ?s] =>
          destruct (IH s) as (k & Hc & Hfin & Habort); [simpl; unfold BATCH_SIZE; lia |]
      end.
      simpl in Hc, Hfin, Habort. unfold accepted in *.
      exists (length (Ppd.batch st ++ [e]) + k)%nat.
      rewrite Hc. split; [|split].
      * rewrite <- foldl_app. f_equal.
        replace (Ppd.batch st ++ e :: omap Ppd.parse_row rows)
          with ((Ppd.batch st ++ [e]) ++ omap Ppd.parse_row rows)
          by (by rewrite <- app_assoc).
        by rewrite take_app_add.
      * intros Hf. rewrite (Hfin Hf). rewrite !length_app. simpl. lia.
      * intros Hf. specialize (Habort Hf). rewrite length_app in *. simpl in *.
        replace (Z.of_nat (length (Ppd.batch st) + 1 + k))
          with (Z.of_nat k + 1 * BATCH_SIZE) by lia.
        by rewrite Z.mod_add.
    + lazymatch goal with
      | |- context [Ppd.ingest_rows rows ?s] =>
          destruct (IH s) as (k & Hc & Hfin & Habort); [simpl; lia |]
      end.
      simpl in Hc, Hfin, Habort. rewrite <- app_assoc in Hc, Hfin. simpl in Hc, Hfin.
      unfold accepted in *. exists k. by repeat split.
Qed.

(** The counts of a run that completes. *)
Lemma ingest_rows_counts (rows : list (list string)) (st : Ppd.loop_state)
    (rep : Ppd.report) (t' : gmap string Sale.t) :
  Ppd.ingest_rows rows st = Finished rep t' ->
  Ppd.rows_read rep = Ppd.total_rows_read st + Z.of_nat (length rows)
  /\ Ppd.rows_written rep
     = Ppd.total_rows_written st + Z.of_nat (length (Ppd.batch st))
       + Z.of_nat (length (accepted rows)).
Proof.
  revert st. induction rows as [|row rows IH]; intros st.
  - simpl. destruct (Ppd.batch st) as [|e b] eqn:Hb.
    + intros [= <- _]. simpl. lia.
    + destruct (Ppd.executemany _ _); [|done]. intros [= <- _]. simpl. lia.
  - simpl. unfold Ppd.step, accepted. simpl.
    destruct (Ppd.parse_row row) as [e|]; simpl.
    + destruct (Z.of_nat _ >=? BATCH_SIZE).
      * destruct (Ppd.executemany _ _); [|done].
        intros [Hr Hw]%IH. unfold accepted in *. simpl in Hr, Hw.
        rewrite length_app in *. simpl in *. lia.
      * intros [Hr Hw]%IH. unfold accepted in *. simpl in Hr, Hw.
        rewrite length_app in *. simpl in *. lia.
    + intros [Hr Hw]%IH. unfold accepted in *. simpl in Hr, Hw. lia.
Qed.

Lemma length_omap_le {A B : Type} (f : A -> option B) (l : list A) :
  (length (omap f l) <= length l)%nat.
Proof. induction l as [|x l IH]; csimpl; [lia |]. destruct (f x); csimpl; lia. Qed.


Lemma ingest_ppd_rows (first_row : list string) (rest : list (list string))
    (alt : option (list (list string))) (t : gmap string Sale.t) :
  Ppd.ingest_ppd (Some (first_row :: rest)) alt t
  = Ppd.ingest_rows (Ppd.data_rows first_row rest) (Ppd.init t).
Proof. done. Qed.

(** X4. After a load that completes, the transactions table is the old table
    with the accepted rows upserted in file order: an identifier holds the
    last accepted row that carries it, and an identifier the file does not
    mention holds what it held. *)
Theorem transaction_load_last_row_wins (first_row : list string)
    (rest : list (list string)) (alt : option (list (list string)))
    (t t' : gmap string Sale.t) (rep : Ppd.report) :
  Ppd.ingest_ppd (Some (first_row :: rest)) alt t = Finished rep t' ->
  t' = foldl Ppd.upsert t (accepted (Ppd.data_rows first_row rest))
  /\ forall txid : string,
       t' !! txid
       = match last_with_key txid (accepted (Ppd.data_rows first_row rest)) with
         | Some s => Some s
         | None => t !! txid
         end.
Proof.
  rewrite ingest_ppd_rows. intros Hrun.
  destruct (ingest_rows_prefix (Ppd.data_rows first_row rest) (Ppd.init t))
    as (k & Hc & Hfin & _); [simpl; unfold BATCH_SIZE; lia |].
  rewrite Hrun in Hc, Hfin. simpl in Hc, Hfin.
  rewrite (Hfin eq_refl), firstn_all in Hc. split; [exact Hc |].
  intros txid. rewrite Hc.
  apply (lookup_foldl_ins id Ppd.upsert ppd_upsert_insert).
Qed.

(** X5. A load that completes reports as read every row the loop saw, and as
    written the rows that passed its checks, never more than were read. *)
Theorem transaction_load_counts (first_row : list string)
    (rest : list (list string)) (alt : option (list (list string)))
    (t t' : gmap string Sale.t) (rep : Ppd.report) :
  Ppd.ingest_ppd (Some (first_row :: rest)) alt t = Finished rep t' ->
  Ppd.rows_read rep = Z.of_nat (length (Ppd.data_rows first_row rest))
  /\ Ppd.rows_written rep = Z.of_nat (length (accepted (Ppd.data_rows first_row rest)))
  /\ 0 <= Ppd.rows_written rep <= Ppd.rows_read rep.
Proof.
  rewrite ingest_ppd_rows. intros [Hr Hw]%ingest_rows_counts. simpl in Hr, Hw.
  rewrite Hr, Hw. split; [lia |]. split; [lia |].
  pose proof (length_omap_le Ppd.parse_row (Ppd.data_rows first_row rest)).
  unfold accepted. lia.
Qed.

(** X6. Loading the same transaction file a second time leaves the table as
    the first load left it, whether the load completes or not. *)
Theorem transaction_load_idempotent (ppd_csv ppd_csv_alt : option (list (list string)))
    (t : gmap string Sale.t) :
  committed (Ppd.ingest_ppd ppd_csv ppd_csv_alt
               (committed (Ppd.ingest_ppd ppd_csv ppd_csv_alt t)))
  = committed (Ppd.ingest_ppd ppd_csv ppd_csv_alt t).
Proof.
  unfold Ppd.ingest_ppd.
  destruct (match ppd_csv with Some f => Some f | None => ppd_csv_alt end)
    as [[|first_row rest]|]; [done | | done].
  rewrite !committed_ingest_rows. simpl.
  apply (foldl_ins_twice id Ppd.upsert ppd_upsert_insert).
Qed.

(** X7. Whatever ends the loop, what is committed is a prefix of the accepted
    rows in file order: all of them when the load completes, and a whole
    number of batches of 50,000 when it is aborted. *)
Theorem transaction_load_commits_batches (first_row : list string)
    (rest : list (list string)) (alt : option (list (list string)))
    (t : gmap string Sale.t) :
  exists k : nat,
    committed (Ppd.ingest_ppd (Some (first_row :: rest)) alt t)
    = foldl Ppd.upsert t (take k (accepted (Ppd.data_rows first_row rest)))
    /\ ((finished (Ppd.ingest_ppd (Some (first_row :: rest)) alt t) = true
         /\ k = length (accepted (Ppd.data_rows first_row rest)))
        \/ (finished (Ppd.ingest_ppd (Some (first_row :: rest)) alt t) = false
            /\ (Z.of_nat k) mod 50000 = 0)).
Proof.
  rewrite ingest_ppd_rows.
  destruct (ingest_rows_prefix (Ppd.data_rows first_row rest) (Ppd.init t))
    as (k & Hc & Hfin & Habort); [simpl; unfold BATCH_SIZE; lia |].
  exists k. split; [exact Hc |].
  destruct (finished _); [left | right]; split; auto.
Qed.



(** X9. A load never removes a transaction: an identifier that is in the
    table before is in it after, whatever ends the load. *)
Theorem transaction_load_keeps_rows (ppd_csv ppd_csv_alt : option (list (list string)))
    (t : gmap string Sale.t) (txid : string) :
  is_Some (t !! txid) ->
  is_Some (committed (Ppd.ingest_ppd ppd_csv ppd_csv_alt t) !! txid).
Proof.
  intros Hk. unfold Ppd.ingest_ppd.
  destruct (match ppd_csv with Some f => Some f | None => ppd_csv_alt end)
    as [[|first_row rest]|]; [done | | done].
  rewrite committed_ingest_rows. simpl.
  by apply (foldl_ins_keeps id Ppd.upsert ppd_upsert_insert).
Qed.

(** X10. A row with fewer than seven columns, with an empty identifier or
    with a postcode that normalises to the empty string is skipped: nothing is
    appended for it, and the table and the count of written rows at the end
    are those of the file without the row. *)
Theorem malformed_row_skipped (row : list string) :
  (length row < 7)%nat \/ Py.strip (Ppd.col row 0) = EmptyString
  \/ normalise_postcode (Ppd.col row 3) = EmptyString ->
  Ppd.parse_row row = None
  /\ forall (pre post : list (list string)) (t : gmap string Sale.t),
       writes (Ppd.ingest_rows (pre ++ row :: post) (Ppd.init t))
       = writes (Ppd.ingest_rows (pre ++ post) (Ppd.init t)).
Proof.
  intros Hbad.
  assert (Hp : Ppd.parse_row row = None).
  { unfold Ppd.parse_row. destruct (Nat.ltb_spec (length row) 7) as [|Hlen]; [done |].
    destruct Hbad as [Hl|[Hid|Hpc]]; [lia | by rewrite Hid |].
    destruct (negb (Py.truthy _)); [done |].
    destruct (Py.int_of_str _); [|done]. by rewrite Hpc. }
  split; [exact Hp |]. intros pre post t. by apply ingest_rows_skipped.
Qed.

(** *** A file with a repeated identifier and a bad row *)

Definition repeated_file : list (list string) :=
  [ sale_row "{TX-1}" "100000" "AA1 1AA"; sale_row "{TX-2}" "200000" "BB1 1BB";
    sale_row "{TX-3}" "n/a" "AA1 1AA"; sale_row "{TX-1}" "150000" "AA1 1AA" ].

Definition old_sale : Sale.t :=
  {| Sale.price := 90000; Sale.transfer_date := "2024-06-30"; Sale.postcode := "AA11AA";
     Sale.property_type := Some "T"; Sale.new_build := Some "N"; Sale.tenure := Some "F";
     Sale.paon := None; Sale.saon := None; Sale.street := None; Sale.locality := None;
     Sale.town := None; Sale.district := None; Sale.county := None;
     Sale.ppd_category_type := None; Sale.record_status := None |}.

Lemma transaction_load_last_row_wins_witness :
  exists s : Sale.t,
    committed (Ppd.ingest_ppd (Some repeated_file) None ∅) !! "{TX-1}" = Some s
    /\ Sale.price s = 150000.
Proof.
  destruct (finished_inv (Ppd.ingest_ppd (Some repeated_file) None ∅)) as [rep Hrun];
    [vm_compute; reflexivity |].
  destruct (transaction_load_last_row_wins _ _ _ _ _ _ Hrun) as [_ Hlast].
  rewrite (Hlast "{TX-1}"). vm_compute. eexists. split; reflexivity.
Defined.

Lemma transaction_load_counts_witness :
  exists (rep : Ppd.report) (t' : gmap string Sale.t),
    Ppd.ingest_ppd (Some repeated_file) None ∅ = Finished rep t'
    /\ Ppd.rows_read rep = 4 /\ Ppd.rows_written rep = 3.
Proof.
  destruct (finished_inv (Ppd.ingest_ppd (Some repeated_file) None ∅)) as [rep Hrun];
    [vm_compute; reflexivity |].
  exists rep, (committed (Ppd.ingest_ppd (Some repeated_file) None ∅)).
  split; [exact Hrun |].
  destruct (transaction_load_counts _ _ _ _ _ _ Hrun) as (Hr & Hw & _).
  rewrite Hr, Hw. split; vm_compute; reflexivity.
Defined.


Lemma transaction_load_keeps_rows_witness :
  is_Some (committed (Ppd.ingest_ppd (Some repeated_file) None {["{OLD}" := old_sale]})
             !! "{OLD}").
Proof.
  apply transaction_load_keeps_rows. vm_compute. by eexists.
Defined.

Lemma malformed_row_skipped_witness :
  Ppd.parse_row ["{TX-9}"; "100000"; "2025-01-01"] = None
  /\ Ppd.parse_row ["  "; "100000"; "2025-01-01"; "AA1 1AA"; "D"; "N"; "F"] = None
  /\ Ppd.parse_row ["{TX-9}"; "100000"; "2025-01-01"; "   "; "D"; "N"; "F"] = None.
Proof.
  split; [|split].
  - apply (malformed_row_skipped ["{TX-9}"; "100000"; "2025-01-01"]). left. simpl. lia.
  - apply (malformed_row_skipped
             ["  "; "100000"; "2025-01-01"; "AA1 1AA"; "D"; "N"; "F"]).
    right. left. reflexivity.
  - apply (malformed_row_skipped
             ["{TX-9}"; "100000"; "2025-01-01"; "   "; "D"; "N"; "F"]).
    right. right. reflexivity.
Defined.

(** ** The reference loader *)

Section ReferenceLoad.
Context {float : Type} `{!PyFloat float}.

Lemma onspd_upsert_insert (t : gmap string (Geo.t float)) (kv : string * Geo.t float) :
  Onspd.upsert t kv = <[kv.1 := as_stored kv.2]> t.
Proof. done. Qed.





Lemma truthy_empty (s : string) : Py.truthy s = false <-> s = EmptyString.
Proof. by destruct s. Qed.



Lemma parse_row_skip (row : gmap string string) :
  Onspd.parse_row row = Onspd.Skip <-> Onspd.pc_raw row = EmptyString.
Proof.
  unfold Onspd.parse_row. destruct (Py.truthy (Onspd.pc_raw row)) eqn:Ht; simpl.
  - split.
    + destruct (Onspd.opt_float _); [|done]. by destruct (Onspd.opt_float _).
    + intros He%truthy_empty. congruence.
  - by apply truthy_empty in Ht.
Qed.

Lemma parse_row_entry (row : gmap string string) (pc : string) (g : Geo.t float) :
  Onspd.parse_row row = Onspd.Entry pc g ->
  Onspd.pc_raw row <> EmptyString /\ pc = normalise_postcode (Onspd.pc_raw row).
Proof.
  unfold Onspd.parse_row. destruct (Py.truthy (Onspd.pc_raw row)) eqn:Ht; simpl; [|done].
  destruct (Onspd.opt_float _); [|done]. destruct (Onspd.opt_float _); [|done].
  intros [= <- _]. split; [|done]. intros He%truthy_empty. congruence.
Qed.


(** The tuples of the rows before the first row that raises. *)
Fixpoint before_raise (rows : list (gmap string string)) : list (string * Geo.t float) :=
  match rows with
  | [] => []
  | row :: rest =>
      match Onspd.parse_row row with
      | Onspd.Skip => before_raise rest
      | Onspd.Raise => []
      | Onspd.Entry pc g => (pc, g) :: before_raise rest
      end
  end.

Lemma ingest_loop_prefix (rows : list (gmap string string)) (st : Onspd.loop_state float) :
  Z.of_nat (length (Onspd.batch st)) < BATCH_SIZE ->
  exists k : nat,
    committed (Onspd.ingest_loop rows st)
    = foldl Onspd.upsert (Onspd.stored st) (take k (Onspd.batch st ++ before_raise rows))
    /\ (finished (Onspd.ingest_loop rows st) = true ->
        k = length (Onspd.batch st ++ before_raise rows))
    /\ (finished (Onspd.ingest_loop rows st) = false ->
        (Z.of_nat k) mod BATCH_SIZE = 0).
Proof.
  revert st. induction rows as [|row rows IH]; intros st Hlen.
  - simpl. rewrite app_nil_r. destruct (Onspd.batch st) as [|e b] eqn:Hb.
    + exists 0%nat. by repeat split.
    + exists (length (e :: b)). rewrite firstn_all. by repeat split.
  - simpl. unfold Onspd.step. destruct (Onspd.parse_row row) as [|pc g|]; simpl.
    + lazymatch goal with
      | |- context [Onspd.ingest_loop rows ?s] =>
          destruct (IH s Hlen) as (k & Hc & Hfin & Habort)
      end.
      exists k. by repeat split.
    + destruct (Z.geb_spec (Z.of_nat (length (Onspd.batch st ++ [(pc, g)]))) BATCH_SIZE)
        as [Hge|Hlt]; simpl.
      * lazymatch goal with
        | |- context [Onspd.ingest_loop rows ?s] =>
            destruct (IH s) as (k & Hc & Hfin & Habort); [simpl; unfold BATCH_SIZE; lia |]
        end.
        simpl in Hc, Hfin, Habort.
        exists (length (Onspd.batch st ++ [(pc, g)]) + k)%nat.
        rewrite Hc. split; [|split].
        -- rewrite <- foldl_app. f_equal.
           replace (Onspd.batch st ++ (pc, g) :: before_raise rows)
             with ((Onspd.batch st ++ [(pc, g)]) ++ before_raise rows)
             by (by rewrite <- app_assoc).
           by rewrite take_app_add.
        -- intros Hf. rewrite (Hfin Hf). rewrite !length_app. simpl. lia.
        -- intros Hf. specialize (Habort Hf). rewrite length_app in *. simpl in *.
           replace (Z.of_nat (length (Onspd.batch st) + 1 + k))
             with (Z.of_nat k + 1 * BATCH_SIZE) by lia.
           by rewrite Z.mod_add.
      * lazymatch goal with
        | |- context [Onspd.ingest_loop rows ?s] =>
            destruct (IH s) as (k & Hc & Hfin & Habort); [simpl; lia |]
        end.
        simpl in Hc, Hfin, Habort. rewrite <- app_assoc in Hc, Hfin. simpl in Hc, Hfin.
        exists k. by repeat split.
    + exists 0%nat. by repeat split.
Qed.

(** The figure of a run that completes. *)
Lemma ingest_loop_upserted (rows : list (gmap string string)) (st : Onspd.loop_state float)
    (rep : Onspd.report) (t' : gmap string (Geo.t float)) :
  Onspd.ingest_loop rows st = Finished rep t' ->
  Onspd.upserted rep
  = Onspd.total st + Z.of_nat (length (Onspd.batch st))
    + Z.of_nat (length (filter (fun row => Onspd.pc_raw row <> EmptyString) rows)).
Proof.
  revert st. induction rows as [|row rows IH]; intros st.
  - simpl. destruct (Onspd.batch st) as [|e b] eqn:Hb.
    + intros [= <- _]. simpl. lia.
    + intros [= <- _]. simpl. lia.
  - simpl. unfold Onspd.step.
    pose proof (parse_row_skip row) as Hskip.
    destruct (Onspd.parse_row row) as [|pc g|] eqn:Hrow.
    + rewrite filter_cons_False by (intros Hn; by apply Hn, Hskip).
      intros Hr%IH. simpl in Hr. lia.
    + rewrite filter_cons_True by (intros He%Hskip; done). simpl.
      destruct (Z.of_nat _ >=? BATCH_SIZE); simpl.
      * intros Hr%IH. simpl in Hr. rewrite length_app in *. simpl in *. lia.
      * intros Hr%IH. simpl in Hr. rewrite length_app in *. simpl in *. lia.
    + done.
Qed.

(** X11. Whatever ends the load of a reference file, what is committed is a
    prefix, in file order, of the rows before the first row that [float]
    rejects: all of them when the load completes, and a whole number of
    batches of 50,000 when it is aborted. *)
Theorem reference_load_commits_batches (t : gmap string (Geo.t float))
    (p : Onspd.csv_file) :
  exists k : nat,
    committed (Onspd.ingest_csv t p)
    = foldl Onspd.upsert t (take k (before_raise (Onspd.rows p)))
    /\ ((finished (Onspd.ingest_csv t p) = true
         /\ k = length (before_raise (Onspd.rows p)))
        \/ (finished (Onspd.ingest_csv t p) = false /\ (Z.of_nat k) mod 50000 = 0)).
Proof.
  unfold Onspd.ingest_csv.
  destruct (ingest_loop_prefix (Onspd.rows p) (Onspd.init t))
    as (k & Hc & Hfin & Habort); [simpl; unfold BATCH_SIZE; lia |].
  exists k. split; [exact Hc |].
  destruct (finished _); [left | right]; split; auto.
Qed.


(** X13. After a load that completes, the reported figure is the number of
    rows with a non-empty postcode field, repeated keys counted each time, and
    the keys of the table are its old keys and the normalised postcodes of
    those rows. *)
Theorem reference_load_figure_and_keys (t t' : gmap string (Geo.t float))
    (p : Onspd.csv_file) (rep : Onspd.report) :
  Onspd.ingest_csv t p = Finished rep t' ->
  Onspd.upserted rep
  = Z.of_nat (length (filter (fun row => Onspd.pc_raw row <> EmptyString) (Onspd.rows p)))
  /\ forall k : string,
       is_Some (t' !! k)
       <-> is_Some (t !! k)
           \/ exists row, row ∈ Onspd.rows p /\ Onspd.pc_raw row <> EmptyString
                          /\ k = normalise_postcode (Onspd.pc_raw row).
Proof.
  intros Hrun. split.
  - unfold Onspd.ingest_csv in Hrun. rewrite (ingest_loop_upserted _ _ _ _ Hrun). simpl. lia.
  - intros k.
    assert (Hfin : finished (Onspd.ingest_loop (Onspd.rows p) (Onspd.init t)) = true)
      by (unfold Onspd.ingest_csv in Hrun; by rewrite Hrun).
    pose proof (committed_ingest_loop (Onspd.rows p) (Onspd.init t)) as Hc.
    rewrite (finished_ingest_loop _ _ Hfin) in Hc. unfold Onspd.ingest_csv in Hrun.
    rewrite Hrun in Hc. simpl in Hc. rewrite Hc.
    rewrite (lookup_foldl_ins as_stored Onspd.upsert onspd_upsert_insert).
    pose proof (last_with_key_elem k (entries (Onspd.rows p))) as Hlast.
    assert (Hrows : (exists g, (k, g) ∈ entries (Onspd.rows p))
                    <-> exists row, row ∈ Onspd.rows p /\ Onspd.pc_raw row <> EmptyString
                                    /\ k = normalise_postcode (Onspd.pc_raw row)).
    { split.
      - intros [g (row & Hin & Hrow)%list_elem_of_omap].
        destruct (Onspd.parse_row row) as [|pc g'|] eqn:E; [done | | done].
        injection Hrow as <- <-. destruct (parse_row_entry _ _ _ E). by exists row.
      - intros (row & Hin & Hne & ->).
        pose proof (finished_no_raise _ _ row Hfin Hin) as Hnr.
        pose proof (parse_row_skip row) as Hskip.
        destruct (Onspd.parse_row row) as [|pc g|] eqn:E;
          [exfalso; by apply Hne, Hskip | | done].
        exists g. apply list_elem_of_omap. exists row. rewrite E.
        destruct (parse_row_entry _ _ _ E) as [_ ->]. done. }
    destruct (last_with_key k (entries (Onspd.rows p))) as [g|] eqn:E.
    + split; [|by eauto]. intros _. right. apply Hrows, Hlast. by eauto.
    + split; [by left |]. intros [?|Hr]; [done |].
      apply Hrows, Hlast in Hr. by destruct Hr.
Qed.

(** X14. The reference loader never removes a postcode: a key that is in the
    reference table before a run is in it after, whatever ends the run. *)
Theorem reference_load_keeps_rows (found : option (list Onspd.csv_file)) (d : db float)
    (t : gmap string (Geo.t float)) (k : string) :
  postcode_geo d = Some t -> is_Some (t !! k) ->
  exists t' : gmap string (Geo.t float),
    postcode_geo (committed (Onspd.main found d)) = Some t' /\ is_Some (t' !! k).
Proof.
  intros Hd Hk. unfold Onspd.main. destruct found as [csvs|]; [|by exists t].
  destruct (Onspd.chosen csvs) as [p|]; [|by exists t].
  replace (default ∅ (postcode_geo (Onspd.ensure_schema d))) with t
    by (simpl; by rewrite Hd).
  pose proof (committed_ingest_loop (Onspd.rows p) (Onspd.init t)) as Hc.
  unfold Onspd.ingest_csv.
  destruct (Onspd.ingest_loop (Onspd.rows p) (Onspd.init t)) as [rep t1|t1];
    simpl in Hc; subst t1; eexists; (split; [reflexivity |]);
    by apply (foldl_ins_keeps as_stored Onspd.upsert onspd_upsert_insert).
Qed.

(** X15. After a run of the reference loader that completes, the region
    subset holds exactly the rows of the reference table whose area name is on
    the list and that have both coordinates, each once. *)
Theorem region_subset_exact (found : option (list Onspd.csv_file)) (d d' : db float)
    (rep : Onspd.report) :
  Onspd.main found d = Finished rep d' ->
  exists (t' : gmap string (Geo.t float)) (rows : list (string * Geo.t float)),
    postcode_geo d' = Some t' /\ postcode_geo_region d' = Some rows
    /\ NoDup rows.*1
    /\ forall (k : string) (g : Geo.t float),
         (k, g) ∈ rows
         <-> t' !! k = Some g
             /\ (exists nm, Geo.ladnm g = Some nm /\ nm ∈ Onspd.LAD_NAMES_REGION)
             /\ is_Some (Geo.lat g) /\ is_Some (Geo.lon g).
Proof.
  unfold Onspd.main. destruct found as [csvs|]; [|done].
  destruct (Onspd.chosen csvs) as [p|]; [|done].
  destruct (Onspd.ingest_csv _ p) as [rep1 t1|t1]; [|done].
  intros [= <- <-]. exists t1, (Onspd.region_rows t1). simpl.
  split; [done |]. split; [done |]. split.
  - unfold Onspd.region_rows.
    eapply NoDup_fmap_fst; [|apply NoDup_filter, NoDup_map_to_list].
    intros k g1 g2 [_ H1]%list_elem_of_filter [_ H2]%list_elem_of_filter.
    apply elem_of_map_to_list in H1, H2. congruence.
  - intros k g. unfold Onspd.region_rows.
    rewrite list_elem_of_filter, elem_of_map_to_list. simpl.
    unfold Onspd.in_region.
    destruct (Geo.ladnm g) as [nm|], (Geo.lat g) as [la|], (Geo.lon g) as [lo|];
      try (split; [by intros [? ?] | intros (_ & (? & ? & ?) & [? ?] & [? ?]); done]).
    rewrite bool_decide_eq_true. split.
    + intros [Hnm Ht]. by eauto 10.
    + intros (Ht & (nm' & [= <-] & Hnm) & _). done.
Qed.

(** X16. A run of the reference loader that does not complete leaves the
    region subset, and every table other than the reference table, as it
    found them. *)
Theorem aborted_reference_load_keeps_region (found : option (list Onspd.csv_file))
    (d : db float) :
  finished (Onspd.main found d) = false ->
  postcode_geo_region (committed (Onspd.main found d)) = postcode_geo_region d
  /\ ppd_sales (committed (Onspd.main found d)) = ppd_sales d
  /\ ppd_sales_geo (committed (Onspd.main found d)) = ppd_sales_geo d
  /\ ppd_sales_geo_region (committed (Onspd.main found d)) = ppd_sales_geo_region d
  /\ heatmap_tiles (committed (Onspd.main found d)) = heatmap_tiles d.
Proof.
  unfold Onspd.main. destruct found as [csvs|]; [|done].
  destruct (Onspd.chosen csvs) as [p|]; [|done].
  by destruct (Onspd.ingest_csv _ p) as [rep1 t1|t1].
Qed.

End ReferenceLoad.

(** *** A reference file with a repeated postcode, and one with a bad
    coordinate *)

Lemma reference_load_figure_and_keys_witness :
  exists rep : Onspd.report,
    Onspd.ingest_csv (∅ : gmap string (Geo.t Q)) file_a
    = Finished rep (committed (Onspd.ingest_csv (∅ : gmap string (Geo.t Q)) file_a))
    /\ Onspd.upserted rep = 2
    /\ is_Some (committed (Onspd.ingest_csv (∅ : gmap string (Geo.t Q)) file_a) !! "AA11AA").
Proof.
  destruct (finished_inv (Onspd.ingest_csv (∅ : gmap string (Geo.t Q)) file_a))
    as [rep Hrun]; [vm_compute; reflexivity |].
  destruct (reference_load_figure_and_keys _ _ _ _ Hrun) as [Hfig Hkeys].
  exists rep. split; [exact Hrun |]. split.
  - rewrite Hfig. vm_compute. reflexivity.
  - apply Hkeys. right. exists row_aa. split; [apply elem_of_cons; by left |].
    split; [vm_compute; discriminate | vm_compute; reflexivity].
Defined.

Lemma reference_load_keeps_rows_witness :
  exists t' : gmap string (Geo.t Q),
    postcode_geo (committed (Onspd.main (Some [file_a]) loaded_db)) = Some t'
    /\ is_Some (t' !! "BB11BB").
Proof.
  apply (reference_load_keeps_rows (Some [file_a]) loaded_db
           (default ∅ (postcode_geo loaded_db)) "BB11BB").
  - vm_compute. reflexivity.
  - refine (bool_decide_eq_true_1 _ _). vm_compute. reflexivity.
Defined.

Lemma region_subset_exact_witness :
  exists (t' : gmap string (Geo.t Q)) (rows : list (string * Geo.t Q)),
    postcode_geo (committed (Onspd.main (Some [reference_file]) empty_db)) = Some t'
    /\ postcode_geo_region (committed (Onspd.main (Some [reference_file]) empty_db))
       = Some rows
    /\ NoDup rows.*1
    /\ forall (k : string) (g : Geo.t Q),
         (k, g) ∈ rows
         <-> t' !! k = Some g
             /\ (exists nm, Geo.ladnm g = Some nm /\ nm ∈ Onspd.LAD_NAMES_REGION)
             /\ is_Some (Geo.lat g) /\ is_Some (Geo.lon g).
Proof.
  destruct (finished_inv (Onspd.main (Some [reference_file]) empty_db)) as [rep Hrun];
    [vm_compute; reflexivity |].
  exact (region_subset_exact _ _ _ _ Hrun).
Defined.

Definition row_bad_latitude : gmap string string :=
  list_to_map [("pcds", "DD1 1DD"); ("lat", "n/a"); ("long", "-2.22");
               ("ladcd", "E07000237"); ("ladnm", "Worcester")].

Definition bad_file : Onspd.csv_file :=
  {| Onspd.name := "ONSPD_BAD_UK.csv"; Onspd.rows := [row_bb; row_bad_latitude] |}.

Lemma aborted_reference_load_keeps_region_witness :
  finished (Onspd.main (Some [bad_file]) loaded_db) = false
  /\ postcode_geo_region (committed (Onspd.main (Some [bad_file]) loaded_db))
     = postcode_geo_region loaded_db.
Proof.
  assert (Hab : finished (Onspd.main (Some [bad_file]) loaded_db) = false)
    by (vm_compute; reflexivity).
  split; [exact Hab |].
  exact (proj1 (aborted_reference_load_keeps_region _ _ Hab)).
Defined.

(** ** The spatial join *)

Section JoinRows.
Context {float : Type} `{!PyFloat float}.

Lemma filter_no_match {A : Type} (f : A -> bool) (l : list A) :
  (forall x, x ∈ l -> f x = false) -> List.filter f l = [].
Proof.
  induction l as [|x l IH]; intros Hall; [done |]. simpl.
  rewrite (Hall x) by (apply elem_of_cons; by left).
  apply IH. intros y Hy. apply Hall, elem_of_cons. by right.
Qed.

(** A sale matches at most one row of a reference table with unique keys. *)
Lemma matches_at_most_one (p : string * Sale.t) (refs : list (string * Geo.t float)) :
  NoDup refs.*1 -> (length (List.filter (Join.matches p) refs) <= 1)%nat.
Proof.
  induction refs as [|g refs IH]; [simpl; lia |].
  rewrite fmap_cons. intros [Hg Hnd]%NoDup_cons. simpl.
  destruct (Join.matches p g) eqn:Hm; [|by apply IH].
  rewrite filter_no_match; [simpl; lia |].
  intros g' Hg'. destruct (Join.matches p g') eqn:Hm'; [|done].
  exfalso. apply Hg. unfold Join.matches in Hm, Hm'.
  apply andb_true_iff in Hm as [[H1%bool_decide_eq_true _]%andb_true_iff _].
  apply andb_true_iff in Hm' as [[H2%bool_decide_eq_true _]%andb_true_iff _].
  rewrite <- H1, H2. apply list_elem_of_fmap. by exists g'.
Qed.

Lemma join_ids (sales : list (string * Sale.t)) (refs : list (string * Geo.t float))
    (r : Joined.t float) :
  r ∈ Join.join sales refs -> exists p, p ∈ sales /\ Joined.transaction_id r = Some p.1.
Proof. intros (p & g & Hp & _ & _ & _ & _ & ->)%join_elem. by exists p. Qed.

(** The identifiers of the rows of a join are distinct when the keys of both
    tables are. *)
Lemma join_ids_NoDup (sales : list (string * Sale.t)) (refs : list (string * Geo.t float)) :
  NoDup sales.*1 -> NoDup refs.*1 ->
  NoDup (map Joined.transaction_id (Join.join sales refs)).
Proof.
  intros Hs Hr. induction sales as [|p sales IH]; [constructor |].
  rewrite fmap_cons in Hs. apply NoDup_cons in Hs as [Hp Hs].
  unfold Join.join. simpl. fold (Join.join sales refs). rewrite map_app.
  apply NoDup_app. split; [|split].
  - pose proof (matches_at_most_one p refs Hr) as Hlen.
    destruct (List.filter (Join.matches p) refs) as [|g [|g' l]]; simpl in *;
      [constructor | | lia].
    apply NoDup_singleton.
  - intros id Hid Hid'.
    apply list_elem_of_In, in_map_iff in Hid as (r & <- & Hr1).
    apply in_map_iff in Hr1 as (g & <- & _).
    apply list_elem_of_In, in_map_iff in Hid' as (r' & Heq & Hr2).
    apply list_elem_of_In, join_ids in Hr2 as (q & Hq & Hid).
    rewrite Hid in Heq. simpl in Heq. injection Heq as Heq.
    apply Hp. rewrite <- Heq. apply list_elem_of_fmap. by exists q.
  - by apply IH.
Qed.

(** X17. The full joined table has one row for each transaction whose
    postcode has a reference record with both coordinates, and no other row:
    every row is a transaction with the coordinates and the area name of the
    record of its postcode, and no identifier occurs twice. *)
Theorem one_joined_row_per_located_sale (d d' : db float) (sales : gmap string Sale.t)
    (geo : gmap string (Geo.t float)) :
  ppd_sales d = Some sales -> postcode_geo d = Some geo ->
  exec (Join.build_joined_tables d) d = Finished tt d' ->
  exists uk : list (Joined.t float),
    ppd_sales_geo d' = Some uk
    /\ NoDup (map Joined.transaction_id uk)
    /\ (forall r, r ∈ uk ->
          exists (txid : string) (s : Sale.t) (g : Geo.t float),
            sales !! txid = Some s /\ geo !! Sale.postcode s = Some g
            /\ is_Some (Geo.lat g) /\ is_Some (Geo.lon g)
            /\ r = Join.joined_row (txid, s) (Sale.postcode s, g))
    /\ (forall (txid : string) (s : Sale.t) (g : Geo.t float),
          sales !! txid = Some s -> geo !! Sale.postcode s = Some g ->
          is_Some (Geo.lat g) -> is_Some (Geo.lon g) ->
          Join.joined_row (txid, s) (Sale.postcode s, g) ∈ uk).
Proof.
  intros Hs Hg Hexec.
  rewrite (build_joined_tables_result d sales geo Hs Hg) in Hexec.
  injection Hexec as <-.
  exists (Join.join (map_to_list sales) (map_to_list geo)). split.
  { by destruct (postcode_geo_region d). }
  split; [apply join_ids_NoDup; apply NoDup_fst_map_to_list |]. split.
  - intros r ([txid s] & [pc g] & Hp & Hgr & Heq & Hlat & Hlon & ->)%join_elem.
    simpl in *. apply elem_of_map_to_list in Hp, Hgr. subst pc.
    by exists txid, s, g.
  - intros txid s g Htx Hpc Hlat Hlon. apply join_elem.
    exists (txid, s), (Sale.postcode s, g). simpl.
    repeat split; try done; by apply elem_of_map_to_list.
Qed.

(** X18. When the rows of the region subset are rows of the reference table,
    every row of the region joined table is a row of the full joined
    table. *)
Theorem region_joined_in_full (d d' : db float) (sales : gmap string Sale.t)
    (geo : gmap string (Geo.t float)) (rows : list (string * Geo.t float)) :
  ppd_sales d = Some sales -> postcode_geo d = Some geo ->
  postcode_geo_region d = Some rows -> region_of_reference d ->
  exec (Join.build_joined_tables d) d = Finished tt d' ->
  exists uk reg : list (Joined.t float),
    ppd_sales_geo d' = Some uk /\ ppd_sales_geo_region d' = Some reg
    /\ forall r, r ∈ reg -> r ∈ uk.
Proof.
  intros Hs Hg Hr Hreg Hexec.
  rewrite (build_joined_tables_result d sales geo Hs Hg), Hr in Hexec.
  injection Hexec as <-.
  exists (Join.join (map_to_list sales) (map_to_list geo)),
         (Join.join (map_to_list sales) rows).
  split; [done |]. split; [done |].
  intros r (p & g & Hp & Hgr & Heq & Hlat & Hlon & ->)%join_elem.
  apply join_elem. exists p, g. repeat split; try done.
  destruct g as [k v]. apply elem_of_map_to_list. by apply (Hreg rows geo Hr Hg (k, v)).
Qed.

Lemma trace_keeps {St A : Type} (proj : St -> A) (stmts : list (St -> option St))
    (d d' : St) :
  Forall (fun s => forall x y, s x = Some y -> proj y = proj x) stmts ->
  d' ∈ trace stmts d -> proj d' = proj d.
Proof.
  intros Hall. revert d. induction Hall as [|s stmts Hs _ IH]; intros d; simpl.
  - by intros ?%elem_of_nil.
  - destruct (s d) as [d1|] eqn:E; [|by intros ?%elem_of_nil].
    intros [->|Hin]%elem_of_cons; [by eapply Hs |].
    rewrite (IH _ Hin). by eapply Hs.
Qed.

(** The tables that the loaders own. *)
Definition base_tables (d : db float)
  : option (gmap string (Geo.t float)) * option (list (string * Geo.t float))
    * option (gmap string Sale.t) :=
  (postcode_geo d, postcode_geo_region d, ppd_sales d).

(** X19. The rebuilds of the derived tables never touch the reference table,
    the region subset or the transactions table, in any state a reader can
    see; the rebuild of the joined tables leaves the tile table alone, and the
    rebuild of the tiles leaves the joined tables alone. *)
Theorem rebuilds_keep_base_tables (d d' : db float) :
  (d' ∈ trace (Join.build_joined_tables d) d ->
   base_tables d' = base_tables d /\ heatmap_tiles d' = heatmap_tiles d)
  /\ (d' ∈ trace (Tiles.main d) d ->
      base_tables d' = base_tables d
      /\ ppd_sales_geo d' = ppd_sales_geo d
      /\ ppd_sales_geo_region d' = ppd_sales_geo_region d).
Proof.
  split.
  - intros Hin.
    apply (trace_keeps (fun x => (base_tables x, heatmap_tiles x))) in Hin.
    + split; [exact (f_equal fst Hin) | exact (f_equal snd Hin)].
    + unfold Join.build_joined_tables.
      destruct (postcode_geo_region d); repeat constructor;
        intros x y; unfold Join.drop_joined_uk, Join.create_joined_uk,
          Join.drop_joined_region, Join.create_joined_region;
        repeat case_match; intros [= <-]; done.
  - intros Hin.
    apply (trace_keeps (fun x => (base_tables x, ppd_sales_geo x, ppd_sales_geo_region x)))
      in Hin.
    + split; [exact (f_equal (fun x => x.1.1) Hin) |].
      split; [exact (f_equal (fun x => x.1.2) Hin) | exact (f_equal snd Hin)].
    + unfold Tiles.main. repeat constructor;
        intros x y; unfold Tiles.drop_tiles, Tiles.create_tiles;
        repeat case_match; intros [= <-]; done.
Qed.

(** X20. When the reference table does not exist, [main] of the transaction
    loader loads the file and then stops: the transactions are committed, the
    joined tables are not rebuilt. *)
Theorem join_without_reference_table (ppd_csv ppd_csv_alt : option (list (list string)))
    (d : db float) :
  postcode_geo d = None ->
  finished (Join.main ppd_csv ppd_csv_alt d) = false
  /\ ppd_sales (committed (Join.main ppd_csv ppd_csv_alt d))
     = Some (committed (Ppd.ingest_ppd ppd_csv ppd_csv_alt (default ∅ (ppd_sales d))))
  /\ ppd_sales_geo (committed (Join.main ppd_csv ppd_csv_alt d)) = ppd_sales_geo d
  /\ ppd_sales_geo_region (committed (Join.main ppd_csv ppd_csv_alt d))
     = ppd_sales_geo_region d.
Proof.
  intros Hg. unfold Join.main. simpl.
  destruct (Ppd.ingest_ppd _ _ _) as [rep t|t]; simpl; [|done]. by rewrite Hg.
Qed.

(** X21. When the reference table exists and the load completes, [main] of
    the transaction loader completes, and the joined tables are the joins of
    the transactions as the load left them with the reference table and with
    the region subset. *)
Theorem main_joins_loaded_table (ppd_csv ppd_csv_alt : option (list (list string)))
    (d : db float) (geo : gmap string (Geo.t float)) (rep : Ppd.report)
    (t : gmap string Sale.t) :
  postcode_geo d = Some geo ->
  Ppd.ingest_ppd ppd_csv ppd_csv_alt (default ∅ (ppd_sales d)) = Finished rep t ->
  exists d' : db float,
    Join.main ppd_csv ppd_csv_alt d = Finished rep d'
    /\ ppd_sales d' = Some t
    /\ ppd_sales_geo d' = Some (Join.join (map_to_list t) (map_to_list geo))
    /\ (forall rows, postcode_geo_region d = Some rows ->
          ppd_sales_geo_region d' = Some (Join.join (map_to_list t) rows)).
Proof.
  intros Hg Hrun. unfold Join.main. simpl. rewrite Hrun. simpl. rewrite Hg.
  rewrite (build_joined_tables_result _ t geo) by done. simpl.
  eexists. split; [reflexivity |].
  destruct (postcode_geo_region d) as [rows|] eqn:Hr; simpl.
  - repeat split; [done.. |]. by intros ? [= <-].
  - by repeat split.
Qed.

End JoinRows.

(** *** The join of the example tables *)

Lemma loaded_db_tables :
  ppd_sales loaded_db = Some (default ∅ (ppd_sales loaded_db))
  /\ postcode_geo loaded_db = Some (default ∅ (postcode_geo loaded_db))
  /\ postcode_geo_region loaded_db = Some (default [] (postcode_geo_region loaded_db))
  /\ exec (Join.build_joined_tables loaded_db) loaded_db = Finished tt joined_db.
Proof.
  split; [vm_compute; reflexivity |]. split; [vm_compute; reflexivity |].
  split; [vm_compute; reflexivity |].
  destruct (finished_inv (exec (Join.build_joined_tables loaded_db) loaded_db))
    as [[] Hfin]; [vm_compute; reflexivity | exact Hfin].
Qed.

Lemma one_joined_row_per_located_sale_witness :
  exists uk : list (Joined.t Q),
    ppd_sales_geo joined_db = Some uk
    /\ NoDup (map Joined.transaction_id uk)
    /\ (forall r, r ∈ uk ->
          exists (txid : string) (s : Sale.t) (g : Geo.t Q),
            default ∅ (ppd_sales loaded_db) !! txid = Some s
            /\ default ∅ (postcode_geo loaded_db) !! Sale.postcode s = Some g
            /\ is_Some (Geo.lat g) /\ is_Some (Geo.lon g)
            /\ r = Join.joined_row (txid, s) (Sale.postcode s, g))
    /\ (forall (txid : string) (s : Sale.t) (g : Geo.t Q),
          default ∅ (ppd_sales loaded_db) !! txid = Some s ->
          default ∅ (postcode_geo loaded_db) !! Sale.postcode s = Some g ->
          is_Some (Geo.lat g) -> is_Some (Geo.lon g) ->
          Join.joined_row (txid, s) (Sale.postcode s, g) ∈ uk).
Proof.
  destruct loaded_db_tables as (Hs & Hg & _ & Hexec).
  exact (one_joined_row_per_located_sale loaded_db joined_db _ _ Hs Hg Hexec).
Defined.

Lemma region_joined_in_full_witness :
  exists uk reg : list (Joined.t Q),
    ppd_sales_geo joined_db = Some uk /\ ppd_sales_geo_region joined_db = Some reg
    /\ forall r, r ∈ reg -> r ∈ uk.
Proof.
  destruct loaded_db_tables as (Hs & Hg & Hr & Hexec).
  exact (region_joined_in_full loaded_db joined_db _ _ _ Hs Hg Hr
           loaded_db_region_of_reference Hexec).
Defined.

Lemma rebuilds_keep_base_tables_witness :
  Tiles.set_tiles joined_db None ∈ trace (Tiles.main joined_db) joined_db
  /\ base_tables (Tiles.set_tiles joined_db None) = base_tables joined_db
  /\ ppd_sales_geo (Tiles.set_tiles joined_db None) = ppd_sales_geo joined_db
  /\ ppd_sales_geo_region (Tiles.set_tiles joined_db None) = ppd_sales_geo_region joined_db.
Proof.
  assert (Hin : Tiles.set_tiles joined_db None ∈ trace (Tiles.main joined_db) joined_db).
  { destruct (tiles_dropped_first joined_db) as [rest ->]. apply elem_of_cons. by left. }
  split; [exact Hin |].
  exact (proj2 (rebuilds_keep_base_tables joined_db (Tiles.set_tiles joined_db None)) Hin).
Defined.

Lemma join_without_reference_table_witness :
  finished (Join.main (Some sales_file) None empty_db) = false
  /\ ppd_sales (committed (Join.main (Some sales_file) None empty_db))
     = Some (committed (Ppd.ingest_ppd (Some sales_file) None
                          (default ∅ (ppd_sales empty_db))))
  /\ ppd_sales_geo (committed (Join.main (Some sales_file) None empty_db))
     = ppd_sales_geo empty_db
  /\ ppd_sales_geo_region (committed (Join.main (Some sales_file) None empty_db))
     = ppd_sales_geo_region empty_db.
Proof.
  exact (join_without_reference_table (Some sales_file) None empty_db eq_refl).
Defined.

(** After the reference loader only. *)
Definition reference_db : db Q :=
  committed (Onspd.main (Some [reference_file]) empty_db).

Lemma main_joins_loaded_table_witness :
  exists d' : db Q,
    finished (Join.main (Some sales_file) None reference_db) = true
    /\ committed (Join.main (Some sales_file) None reference_db) = d'
    /\ ppd_sales_geo d'
       = Some (Join.join
                 (map_to_list (committed (Ppd.ingest_ppd (Some sales_file) None
                                            (default ∅ (ppd_sales reference_db)))))
                 (map_to_list (default ∅ (postcode_geo reference_db)))).
Proof.
  assert (Hg : postcode_geo reference_db = Some (default ∅ (postcode_geo reference_db)))
    by (vm_compute; reflexivity).
  destruct (finished_inv (Ppd.ingest_ppd (Some sales_file) None
                            (default ∅ (ppd_sales reference_db))))
    as [rep Hrun]; [vm_compute; reflexivity |].
  destruct (main_joins_loaded_table _ _ _ _ _ _ Hg Hrun) as (d' & Hmain & _ & Huk & _).
  exists d'. rewrite Hmain. by repeat split.
Defined.

(** ** The aggregate query, further *)

(** SUM of a list of prices. *)
Definition total (xs : list Z) : Z := foldr Z.add 0 xs.




Section GroupQuery.
Context {K : Type} `{EqDecision K}.

Lemma NoDup_map_on {A B : Type} (f : A -> B) (l : list A) :
  (forall x y, x ∈ l -> y ∈ l -> f x = f y -> x = y) -> NoDup l -> NoDup (map f l).
Proof.
  intros Hinj Hnd. induction Hnd as [|x l Hx Hnd IH]; [constructor |]. simpl.
  constructor.
  - intros (y & Hxy & Hy)%list_elem_of_In%in_map_iff. apply list_elem_of_In in Hy.
    apply Hx. rewrite (Hinj x y); [done | | | done].
    + apply elem_of_cons. by left.
    + apply elem_of_cons. by right.
  - apply IH. intros y z Hy Hz. apply Hinj; apply elem_of_cons; by right.
Qed.

Lemma NoDup_map_filter {A B : Type} (f : A -> B) (p : A -> bool) (l : list A) :
  NoDup (map f l) -> NoDup (map f (List.filter p l)).
Proof.
  induction l as [|x l IH]; [done |]. simpl. intros [Hx Hnd]%NoDup_cons.
  destruct (p x); [|by apply IH]. simpl. constructor; [|by apply IH].
  intros (y & Hxy & Hy)%list_elem_of_In%in_map_iff. apply filter_In in Hy as [Hy _].
  apply Hx. rewrite <- Hxy. apply list_elem_of_In, in_map. done.
Qed.

Lemma ranked_cnt (binned : list (K * Z)) (r : Tiles.ranked_row K) :
  r ∈ Tiles.ranked binned -> Tiles.cnt r = cell_count binned (Tiles.cell r).
Proof.
  intros (k & Hk & Hr)%ranked_elem.
  destruct (rank_partition_cell _ _ _ Hr) as [-> ->]. done.
Qed.

(** GROUP BY gives no cell twice. *)
Lemma grouped_cells_NoDup (binned : list (K * Z)) :
  NoDup (map Tiles.g_cell (Tiles.grouped binned)).
Proof.
  unfold Tiles.grouped. rewrite map_map. simpl.
  apply NoDup_map_on; [|apply NoDup_remove_dups].
  intros [k n] [k' n'] Hx Hy. simpl. intros <-.
  apply elem_of_remove_dups, list_elem_of_In, in_map_iff in Hx as (r & [= <- <-] & Hr).
  apply elem_of_remove_dups, list_elem_of_In, in_map_iff in Hy as (r' & [= Hc <-] & Hr').
  apply list_elem_of_In, ranked_cnt in Hr, Hr'. by rewrite Hr, Hr', Hc.
Qed.

Lemma grouped_group_of (binned : list (K * Z)) :
  Tiles.grouped binned
  = map (group_of binned) (map Tiles.g_cell (Tiles.grouped binned)).
Proof.
  rewrite map_map. rewrite <- (map_id (Tiles.grouped binned)) at 1.
  apply map_ext_in. intros g (k & _ & ->)%list_elem_of_In%grouped_elem. done.
Qed.

(** The groups are the cells that have rows. *)
Lemma grouped_cells_Permutation (binned : list (K * Z)) :
  map Tiles.g_cell (Tiles.grouped binned) ≡ₚ remove_dups (map fst binned).
Proof.
  apply NoDup_Permutation; [apply grouped_cells_NoDup | apply NoDup_remove_dups |].
  intros k. rewrite elem_of_remove_dups, list_elem_of_In, in_map_iff. split.
  - intros (g & <- & (k' & Hk' & ->)%list_elem_of_In%grouped_elem). done.
  - intros Hk. exists (group_of binned k). split; [done |].
    apply list_elem_of_In, grouped_elem. by exists k.
Qed.

(** Each row of [binned] lies in one cell. *)
Lemma cell_counts_total (binned : list (K * Z)) (ks : list K) :
  NoDup ks -> (forall x, x ∈ binned -> x.1 ∈ ks) ->
  total (map (cell_count binned) ks) = Z.of_nat (length binned).
Proof.
  intros Hnd. induction binned as [|[k0 p] binned IH]; intros Hall.
  - unfold total, cell_count, Tiles.cell_prices. simpl.
    clear. induction ks as [|k ks IH]; simpl; lia.
  - assert (Hk0 : k0 ∈ ks) by (apply (Hall (k0, p)), elem_of_cons; by left).
    assert (Hrest : forall x, x ∈ binned -> x.1 ∈ ks)
      by (intros x Hx; apply Hall, elem_of_cons; by right).
    specialize (IH Hrest). cbn [length]. rewrite Nat2Z.inj_succ, <- IH.
    clear IH Hall Hrest. induction Hnd as [|k ks Hk Hnd IHks]; [by apply elem_of_nil in Hk0 |].
    unfold total in *. cbn [map foldr].
    unfold cell_count at 1 3, Tiles.cell_prices. simpl.
    apply elem_of_cons in Hk0 as [->|Hk0].
    + rewrite filter_cons_True by done. cbn [map length]. rewrite Nat2Z.inj_succ.
      assert (Hsame : foldr Z.add 0 (map (cell_count ((k, p) :: binned)) ks)
                      = foldr Z.add 0 (map (cell_count binned) ks)).
      { f_equal. apply map_ext_in. intros k' Hk'%list_elem_of_In.
        unfold cell_count, Tiles.cell_prices. rewrite filter_cons_False; [done |].
        simpl. by intros ->. }
      rewrite Hsame. lia.
    + rewrite filter_cons_False by (simpl; by intros ->).
      specialize (IHks Hk0). lia.
Qed.

(** Permuting the rows permutes the prices of each cell. *)
Lemma cell_prices_Permutation (binned binned' : list (K * Z)) (k : K) :
  binned ≡ₚ binned' -> Tiles.cell_prices binned k ≡ₚ Tiles.cell_prices binned' k.
Proof.
  intros Hp. unfold Tiles.cell_prices. apply Permutation_map.
  induction Hp as [|x l l' _ IH|x y l|l1 l2 l3 _ IH1 _ IH2]; [done | | |].
  - destruct (decide (x.1 = k)).
    + rewrite !filter_cons_True by done. by constructor.
    + by rewrite !filter_cons_False by done.
  - destruct (decide (x.1 = k)), (decide (y.1 = k));
      rewrite ?filter_cons_True, ?filter_cons_False by done;
      rewrite ?filter_cons_True, ?filter_cons_False by done; try done.
    apply perm_swap.
  - by etrans.
Qed.

Lemma group_of_Permutation (binned binned' : list (K * Z)) (k : K) :
  binned ≡ₚ binned' -> group_of binned k = group_of binned' k.
Proof.
  intros Hp. pose proof (cell_prices_Permutation _ _ k Hp) as Hc.
  assert (Hs : merge_sort Z.le (Tiles.cell_prices binned k)
               = merge_sort Z.le (Tiles.cell_prices binned' k)).
  { apply (Sorted_unique Z.le); [apply Sorted_merge_sort; apply _.. |].
    by rewrite !merge_sort_Permutation. }
  unfold group_of, cell_count, Tiles.rank_partition.
  by rewrite Hs, (Permutation_length Hc).
Qed.

End GroupQuery.

(** ** The tile table, further *)



Lemma total_filter_le {A : Type} (f : A -> Z) (p : A -> bool) (l : list A) :
  (forall x, x ∈ l -> 0 <= f x) ->
  total (map f (List.filter p l)) <= total (map f l).
Proof.
  unfold total. induction l as [|x l IH]; intros Hall; [done |].
  assert (Hx : 0 <= f x) by (apply Hall, elem_of_cons; by left).
  assert (Hl : forall y, y ∈ l -> 0 <= f y)
    by (intros y Hy; apply Hall, elem_of_cons; by right).
  specialize (IH Hl). simpl. destruct (p x); simpl; lia.
Qed.

Lemma length_omap_source {A B : Type} (f : A -> option B) (l : list A) :
  (length (omap f l) <= length l)%nat.
Proof. induction l as [|x l IH]; [done |]. csimpl. destruct (f x); simpl; lia. Qed.

Lemma NoDup_of_map {A B : Type} (f : A -> B) (l : list A) : NoDup (map f l) -> NoDup l.
Proof.
  induction l as [|x l IH]; [constructor |]. simpl. intros [Hx Hnd]%NoDup_cons.
  constructor; [|by apply IH]. intros Hin. apply Hx.
  apply list_elem_of_In, in_map. by apply list_elem_of_In.
Qed.

(** HAVING keeps the cells distinct. *)
Lemma select_tiles_cells_NoDup {K : Type} `{EqDecision K} (binned : list (K * Z)) :
  NoDup (map Tiles.g_cell (Tiles.select_tiles binned)).
Proof. unfold Tiles.select_tiles. apply NoDup_map_filter, grouped_cells_NoDup. Qed.

Section TileAggregates.
Context {float : Type} `{!PyFloat float}.


(** The key of a tile. *)
Definition tile_cell (t : Tile.t float) : float * float :=
  (Tile.lat_bin t, Tile.lon_bin t).

Lemma tile_cells (source : list (Joined.t float)) :
  map tile_cell (Tiles.build_tiles source)
  = map Tiles.g_cell (Tiles.select_tiles (Tiles.binned source)).
Proof.
  unfold Tiles.build_tiles. rewrite map_map. apply map_ext.
  intros g. unfold tile_cell. simpl. by destruct (Tiles.g_cell g).
Qed.


(** X23. The tile table has one row for a cell at most: no pair of lower
    bounds occurs twice. *)
Theorem tile_cells_distinct (source : list (Joined.t float)) :
  NoDup (map tile_cell (Tiles.build_tiles source)).
Proof.
  rewrite tile_cells. apply select_tiles_cells_NoDup.
Qed.


(** X25. The choice of the source in [main]: the region joined table when it
    exists and has a row, even when the full joined table is missing; the full
    joined table otherwise. When that table does not exist either, the script
    stops after the DROP: the tile table is gone, whatever it held before. *)
Theorem tiles_source_choice (d : db float) :
  (forall rows : list (Joined.t float),
     ppd_sales_geo_region d = Some rows -> rows <> [] ->
     exec (Tiles.main d) d
     = Finished tt (Tiles.set_tiles d (Some (Tiles.build_tiles rows))))
  /\ (forall uk : list (Joined.t float),
        ppd_sales_geo_region d = None \/ ppd_sales_geo_region d = Some [] ->
        ppd_sales_geo d = Some uk ->
        exec (Tiles.main d) d
        = Finished tt (Tiles.set_tiles d (Some (Tiles.build_tiles uk))))
  /\ (ppd_sales_geo_region d = None \/ ppd_sales_geo_region d = Some [] ->
      ppd_sales_geo d = None ->
      exec (Tiles.main d) d = Aborted (Tiles.set_tiles d None)).
Proof.
  unfold exec, Tiles.main, Tiles.choose_source. split; [|split].
  - intros [|r rows] Hr Hne; [done |]. rewrite Hr. simpl.
    unfold Tiles.create_tiles. simpl. by rewrite Hr.
  - intros uk [Hr|Hr] Huk; rewrite Hr; simpl; unfold Tiles.create_tiles; simpl;
      by rewrite Huk.
  - intros [Hr|Hr] Huk; rewrite Hr; simpl; unfold Tiles.create_tiles; simpl;
      by rewrite Huk.
Qed.

Lemma build_tiles_NoDup (source : list (Joined.t float)) :
  NoDup (Tiles.build_tiles source).
Proof.
  apply (NoDup_of_map tile_cell). rewrite tile_cells. apply select_tiles_cells_NoDup.
Qed.

Lemma binned_Permutation (source source' : list (Joined.t float)) :
  source ≡ₚ source' -> Tiles.binned source ≡ₚ Tiles.binned source'.
Proof. intros Hp. unfold Tiles.binned. by rewrite Hp. Qed.

(** X26. The tile table does not depend on the order of the rows of the
    source table: two sources with the same rows in another order give the
    same tiles, up to their order. *)
Theorem tiles_order_independent (source source' : list (Joined.t float)) :
  source ≡ₚ source' -> Tiles.build_tiles source ≡ₚ Tiles.build_tiles source'.
Proof.
  intros Hp%binned_Permutation.
  apply NoDup_Permutation.
  - apply build_tiles_NoDup.
  - apply build_tiles_NoDup.
  - intros t. rewrite !build_tiles_elem.
    split; intros (k & -> & Hn); exists k; unfold cell_count in *.
    + rewrite <- (Permutation_length (cell_prices_Permutation _ _ k Hp)).
      by rewrite (group_of_Permutation _ _ k Hp).
    + rewrite (Permutation_length (cell_prices_Permutation _ _ k Hp)).
      by rewrite (group_of_Permutation _ _ k Hp).
Qed.

(** X27. No row is counted twice. Before HAVING the counts of the groups add
    up to the number of rows with coordinates and a price; the sales counts of
    the tiles add up to that number at most, and so to the number of rows of
    the source at most. *)
Theorem tile_counts_within_rows (source : list (Joined.t float)) :
  total (map Tiles.g_sales_count (Tiles.grouped (Tiles.binned source)))
  = Z.of_nat (length (Tiles.binned source))
  /\ total (map Tile.sales_count (Tiles.build_tiles source))
     <= Z.of_nat (length (Tiles.binned source))
  /\ Z.of_nat (length (Tiles.binned source)) <= Z.of_nat (length source).
Proof.
  set (b := Tiles.binned source).
  assert (Hsum : total (map Tiles.g_sales_count (Tiles.grouped b)) = Z.of_nat (length b)).
  { rewrite grouped_group_of, map_map. simpl.
    apply cell_counts_total; [apply grouped_cells_NoDup |].
    intros x Hx. rewrite grouped_cells_Permutation.
    apply elem_of_remove_dups, list_elem_of_In, in_map. by apply list_elem_of_In. }
  split; [done |]. split.
  - rewrite <- Hsum. unfold Tiles.build_tiles, Tiles.select_tiles. fold b.
    rewrite map_map. simpl.
    apply (total_filter_le Tiles.g_sales_count).
    intros g (k & _ & ->)%grouped_elem. simpl. unfold cell_count. lia.
  - apply inj_le. unfold b, Tiles.binned. apply length_omap_source.
Qed.

End TileAggregates.

(** *** The tile of the example tables *)




Lemma tiles_source_choice_witness :
  exec (Tiles.main joined_db) joined_db
  = Finished tt (Tiles.set_tiles joined_db (Some (Tiles.build_tiles region_source))).
Proof.
  apply (proj1 (tiles_source_choice joined_db)).
  - vm_compute. reflexivity.
  - intros E. apply (f_equal length) in E. vm_compute in E. discriminate.
Defined.

Lemma tiles_order_independent_witness :
  Tiles.build_tiles region_source ≡ₚ Tiles.build_tiles (rev region_source).
Proof.
  exact (tiles_order_independent region_source (rev region_source)
           (Permutation_rev region_source)).
Defined.
